(** * AIBTCC ledger: transactions, blocks, mining and balance bookkeeping

    A shallow embedding of [src/blockchain.js] (classes [Transaction], [Block]
    and [Blockchain]) together with the properties its specification states.

    Conventions of the embedding:
    - JavaScript numbers are integers ([Z]); [String(n)] is the decimal
      rendering [pretty n].
    - strings are [string]; [null] is [None] in an [option string].
    - [node:crypto], [elliptic] and the Merkle tree module are collaborators
      of the file and are taken through the interface [Primitives].
    - Redis, the SQL database, the clock and the mining lock form the
      [World]; every call to Redis or to the database may be rejected, which
      is decided by a fault schedule carried in the world. *)

From Stdlib Require Import ZArith String Ascii List Bool Lia.
From stdpp Require Import base tactics option list strings pretty gmap.

Local Open Scope string_scope.
Local Open Scope Z_scope.
Local Open Scope list_scope.

(** ** Results of running JavaScript code *)

(** What a [throw] carries: [new Error(msg)] raised by the ledger itself, or
    the rejection of an awaited call to a collaborator (Redis, database). *)
Inductive error : Type :=
| Error (msg : string)
| Rejected (operation : string).

(** A call returns, throws, or is still running when the fuel is spent. *)
Inductive outcome (A : Type) : Type :=
| Ret (a : A)
| Throw (e : error)
| Diverge.

Arguments Ret {A} a.
Arguments Throw {A} e.
Arguments Diverge {A}.

(** The values a ledger method hands back to its caller. *)
Inductive value : Type :=
| VUndefined
| VString (s : string).

(** ** Collaborators of the file *)

Class Primitives : Type := {
  (** [crypto.createHash('sha256').update(s).digest('hex')] *)
  sha256 : string -> string;
  (** [ec.keyFromPublic(publicKey, 'hex').verify(digest, signature)];
      [None] when one of the two calls throws (malformed key or
      signature). *)
  ecVerify : string -> string -> string -> option bool;
  (** Modelled from the spec: [new MerkleTree(hashes).getRootHash()]; the
      module [./merkleTree] is not part of the sources, the root is a
      function of the ordered leaf hashes. *)
  merkleRootHash : list string -> string
}.

(** ** JavaScript string primitives *)

(** [String(v)] for a value that is [null] or a string. *)
Definition stringOfNullable (v : option string) : string :=
  match v with
  | None => "null"
  | Some s => s
  end.

(** Truthiness of a value that is [null] or a string. *)
Definition truthy (v : option string) : bool :=
  match v with
  | None => false
  | Some s => negb (String.eqb s "")
  end.

(** ["0".repeat(n)] and [Array(n + 1).join("0")]. *)
Fixpoint zeros (n : nat) : string :=
  match n with
  | O => ""
  | S k => String "0" (zeros k)
  end.

(** The number of zero characters a string starts with: the difficulty a
    hash meets. *)
Fixpoint leadingZeros (s : string) : nat :=
  match s with
  | String c r => if Ascii.eqb c "0" then S (leadingZeros r) else O
  | EmptyString => O
  end.

Definition dquote : ascii := "034"%char.

Definition hexDigit (n : N) : ascii :=
  match n with
  | 0 => "0" | 1 => "1" | 2 => "2" | 3 => "3" | 4 => "4" | 5 => "5"
  | 6 => "6" | 7 => "7" | 8 => "8" | 9 => "9" | 10 => "a" | 11 => "b"
  | 12 => "c" | 13 => "d" | 14 => "e" | _ => "f"
  end%N%char.

(** The escape [JSON.stringify] writes for one character of a string. *)
Definition jsonEscape (c : ascii) : string :=
  let n := N_of_ascii c in
  if (n =? 34)%N then String "\" (String dquote "")
  else if (n =? 92)%N then "\\"
  else if (n =? 8)%N then "\b"
  else if (n =? 12)%N then "\f"
  else if (n =? 10)%N then "\n"
  else if (n =? 13)%N then "\r"
  else if (n =? 9)%N then "\t"
  else if (n <? 32)%N then
    "\u00" +:+ String (hexDigit (n / 16)) (String (hexDigit (n mod 16)) "")
  else String c "".

Fixpoint jsonEscapeAll (s : string) : string :=
  match s with
  | EmptyString => ""
  | String c r => jsonEscape c +:+ jsonEscapeAll r
  end.

Definition jsonString (s : string) : string :=
  String dquote (jsonEscapeAll s) +:+ String dquote "".

Definition jsonNullable (v : option string) : string :=
  match v with
  | None => "null"
  | Some s => jsonString s
  end.

Fixpoint joinWith (sep : string) (l : list string) : string :=
  match l with
  | [] => ""
  | [x] => x
  | x :: r => x +:+ sep +:+ joinWith sep r
  end.

Definition jsonArray (l : list string) : string :=
  "[" +:+ joinWith "," l +:+ "]".

(** ** class Transaction *)

Module Transaction.

Record t : Type := mk {
  fromAddress : option string;
  toAddress : string;
  amount : Z;
  timestamp : Z;
  signature : option string;
  blockHash : string;
  hash : string
}.

Definition setAmount (a : Z) (tx : t) : t :=
  mk (fromAddress tx) (toAddress tx) a (timestamp tx) (signature tx)
     (blockHash tx) (hash tx).

Definition setSignature (sg : option string) (tx : t) : t :=
  mk (fromAddress tx) (toAddress tx) (amount tx) (timestamp tx) sg
     (blockHash tx) (hash tx).

Definition setBlockHash (h : string) (tx : t) : t :=
  mk (fromAddress tx) (toAddress tx) (amount tx) (timestamp tx)
     (signature tx) h (hash tx).

Definition setHash (h : string) (tx : t) : t :=
  mk (fromAddress tx) (toAddress tx) (amount tx) (timestamp tx)
     (signature tx) (blockHash tx) h.

Section Methods.
Context `{Primitives}.

(** [this.fromAddress + this.toAddress + this.amount + this.timestamp],
    the argument of [update]. *)
Definition hashInput (tx : t) : string :=
  stringOfNullable (fromAddress tx) +:+ toAddress tx
    +:+ pretty (amount tx) +:+ pretty (timestamp tx).

Definition calculateHash (tx : t) : string :=
  sha256 (hashInput tx).

(** [new Transaction(from, to, amount, timestamp, signature, blockHash)] *)
Definition new (from : option string) (to : string) (amt ts : Z)
    (sg : option string) (bh : string) : t :=
  let tx := mk from to amt ts sg bh "" in
  setHash (calculateHash tx) tx.

(** [isValid()]: the reward exemption, the test
    [!this.signature || this.signature.length === 0], and the
    [try]/[catch] around the two elliptic calls. *)
Definition isValid (tx : t) : outcome bool :=
  let hashToVerify := calculateHash tx in
  match fromAddress tx with
  | None => Ret true
  | Some publicKey =>
      match signature tx with
      | None => Ret false
      | Some sg =>
          if String.eqb sg "" then Ret false
          else
            match ecVerify publicKey hashToVerify sg with
            | Some verified => Ret verified
            | None => Ret false
            end
      end
  end.

(** [JSON.stringify] of the transaction without its [blockHash]
    property, keys in creation order. *)
Definition jsonWithoutBlockHash (tx : t) : string :=
  "{" +:+ jsonString "fromAddress" +:+ ":" +:+ jsonNullable (fromAddress tx)
    +:+ "," +:+ jsonString "toAddress" +:+ ":" +:+ jsonString (toAddress tx)
    +:+ "," +:+ jsonString "amount" +:+ ":" +:+ pretty (amount tx)
    +:+ "," +:+ jsonString "timestamp" +:+ ":" +:+ pretty (timestamp tx)
    +:+ "," +:+ jsonString "signature" +:+ ":" +:+ jsonNullable (signature tx)
    +:+ "," +:+ jsonString "hash" +:+ ":" +:+ jsonString (hash tx) +:+ "}".

End Methods.

End Transaction.

(** ** class Block *)

Module Block.

Record t : Type := mk {
  index : Z;
  previousHash : string;
  timestamp : Z;
  transactions : list Transaction.t;
  difficulty : nat;
  merkleRoot : string;
  nonce : Z;
  hash : string
}.

Definition setTransactions (txs : list Transaction.t) (b : t) : t :=
  mk (index b) (previousHash b) (timestamp b) txs (difficulty b)
     (merkleRoot b) (nonce b) (hash b).

Definition setMerkleRoot (r : string) (b : t) : t :=
  mk (index b) (previousHash b) (timestamp b) (transactions b)
     (difficulty b) r (nonce b) (hash b).

Definition setNonce (n : Z) (b : t) : t :=
  mk (index b) (previousHash b) (timestamp b) (transactions b)
     (difficulty b) (merkleRoot b) n (hash b).

Definition setHash (h : string) (b : t) : t :=
  mk (index b) (previousHash b) (timestamp b) (transactions b)
     (difficulty b) (merkleRoot b) (nonce b) h.

Section Methods.
Context `{Primitives}.

Definition calculateMerkleRoot (b : t) : string :=
  match transactions b with
  | [] => zeros 64
  | txs => merkleRootHash (map Transaction.hash txs)
  end.

Definition transactionsData (b : t) : string :=
  jsonArray (map Transaction.jsonWithoutBlockHash (transactions b)).

Definition calculateHash (b : t) : string :=
  sha256 (previousHash b +:+ pretty (timestamp b) +:+ merkleRoot b
            +:+ pretty (nonce b) +:+ transactionsData b).

(** [new Block(index, previousHash, timestamp, transactions, difficulty)] *)
Definition new (i : Z) (prev : string) (ts : Z)
    (txs : list Transaction.t) (d : nat) : t :=
  let b0 := mk i prev ts txs d "" 0 "" in
  let b1 := setMerkleRoot (calculateMerkleRoot b0) b0 in
  setHash (calculateHash b1) b1.

(** The loop test of [mineBlock], negated:
    [this.hash.substring(0, difficulty) === Array(difficulty + 1).join("0")] *)
Definition meetsDifficulty (d : nat) (b : t) : bool :=
  String.eqb (substring 0 d (hash b)) (zeros d).

(** One turn of the loop body: [this.nonce++; this.hash = this.calculateHash()]. *)
Definition bumpNonce (b : t) : t :=
  let b1 := setNonce (nonce b + 1) b in
  setHash (calculateHash b1) b1.

(** [mineBlock(difficulty)]; [fuel] bounds the number of turns of the
    loop, [None] stands for a search that has not ended within it. *)
Fixpoint mineBlock (fuel : nat) (d : nat) (b : t) : option t :=
  if meetsDifficulty d b then Some b
  else
    match fuel with
    | O => None
    | S fuel' => mineBlock fuel' d (bumpNonce b)
    end.

(** [hasValidTransactions()]: stops at the first transaction that is
    not valid. *)
Fixpoint allValid (txs : list Transaction.t) : outcome bool :=
  match txs with
  | [] => Ret true
  | tx :: rest =>
      match Transaction.isValid tx with
      | Ret true => allValid rest
      | other => other
      end
  end.

Definition hasValidTransactions (b : t) : outcome bool :=
  allValid (transactions b).

End Methods.

End Block.

(** ** class Blockchain and the world it runs in *)

Module Blockchain.

(** The fields of a [Blockchain] instance. *)
Record t : Type := mk {
  chain : list Block.t;
  difficulty : nat;
  pendingTransactions : list Transaction.t;
  miningReward : Z;
  transactionThreshold : nat;
  minerAddress : string;
  genesisAddress : string
}.

(** The value of one field of the Redis hash [pending_transactions]: the
    object [savePendingToRedis] serialises and
    [loadPendingTransactionsFromRedis] parses back. *)
Record PendingData : Type := mkPending {
  pFromAddress : option string;
  pToAddress : string;
  pAmount : Z;
  pTimestamp : Z;
  pSignature : option string
}.

(** Rows the SQL collaborator has accepted. *)
Inductive DbRow : Type :=
| BlockRow (hash previousHash : string) (timestamp nonce : Z)
    (difficulty : nat) (merkleRoot : string) (index : Z)
| TransactionRow (tx : Transaction.t)
| MerkleNodesRow (blockHash : string) (leaves : list string)
| MerkleProofRow (blockHash transactionHash : string).

(** Everything outside the process. [balances] holds the Redis string
    keys [wallet_balance_<address>] (numeric strings, read back with
    [parseFloat]); [pendingPool] is the Redis hash in the order
    [hGetAll] lists it; [miningLock] tells whether somebody holds the
    mining lock and [lockReleases] counts the calls of [releaseLock];
    [database] lists the rows inserted so far; [clock] is what [Date.now()]
    answers; [faults] says, call by call, which of the next Redis or
    database calls is rejected (none once it is used up). *)
Record World : Type := mkWorld {
  balances : gmap string Z;
  pendingPool : list (string * PendingData);
  miningLock : bool;
  lockReleases : nat;
  database : list DbRow;
  clock : Z;
  faults : list bool
}.

Record State : Type := mkState {
  ledger : t;
  world : World
}.

Definition setChain (c : list Block.t) (l : t) : t :=
  mk c (difficulty l) (pendingTransactions l) (miningReward l)
     (transactionThreshold l) (minerAddress l) (genesisAddress l).

Definition setPendingTransactions (p : list Transaction.t) (l : t) : t :=
  mk (chain l) (difficulty l) p (miningReward l)
     (transactionThreshold l) (minerAddress l) (genesisAddress l).

Definition setBalances (b : gmap string Z) (w : World) : World :=
  mkWorld b (pendingPool w) (miningLock w) (lockReleases w) (database w)
          (clock w) (faults w).

Definition setPendingPool (p : list (string * PendingData)) (w : World) : World :=
  mkWorld (balances w) p (miningLock w) (lockReleases w) (database w)
          (clock w) (faults w).

Definition setLock (held : bool) (releases : nat) (w : World) : World :=
  mkWorld (balances w) (pendingPool w) held releases (database w)
          (clock w) (faults w).

Definition setDatabase (d : list DbRow) (w : World) : World :=
  mkWorld (balances w) (pendingPool w) (miningLock w) (lockReleases w) d
          (clock w) (faults w).

Definition setFaults (f : list bool) (w : World) : World :=
  mkWorld (balances w) (pendingPool w) (miningLock w) (lockReleases w)
          (database w) (clock w) f.

Definition onLedger (f : t -> t) (st : State) : State :=
  mkState (f (ledger st)) (world st).

Definition onWorld (f : World -> World) (st : State) : State :=
  mkState (ledger st) (f (world st)).

(** *** Computations: state passing with exceptions *)

Definition M (A : Type) : Type := State -> outcome A * State.

Definition ret {A} (a : A) : M A := fun st => (Ret a, st).

Definition throw {A} (e : error) : M A := fun st => (Throw e, st).

Definition bind {A B} (m : M A) (k : A -> M B) : M B :=
  fun st =>
    match m st with
    | (Ret a, st') => k a st'
    | (Throw e, st') => (Throw e, st')
    | (Diverge, st') => (Diverge, st')
    end.

Definition gets {A} (f : State -> A) : M A := fun st => (Ret (f st), st).

Definition modify (f : State -> State) : M unit := fun st => (Ret tt, f st).

(** [try { m } catch (error) { handler }] *)
Definition tryCatch {A} (m : M A) (handler : error -> M A) : M A :=
  fun st =>
    match m st with
    | (Throw e, st') => handler e st'
    | other => other
    end.

(** [try { m } finally { cleanup }]: the cleanup runs after a return and
    after a throw; what it throws replaces the result of [m]. *)
Definition tryFinally {A} (m : M A) (cleanup : M unit) : M A :=
  fun st =>
    match m st with
    | (Diverge, st') => (Diverge, st')
    | (r, st') =>
        match cleanup st' with
        | (Ret _, st'') => (r, st'')
        | (Throw e, st'') => (Throw e, st'')
        | (Diverge, st'') => (Diverge, st'')
        end
    end.

Declare Scope js_scope.
Delimit Scope js_scope with js.
Notation "x <- m ;; k" := (bind m (fun x => k))
  (at level 100, m at next level, right associativity) : js_scope.
Notation "m ;;; k" := (bind m (fun _ => k))
  (at level 100, right associativity) : js_scope.
Local Open Scope js_scope.

(** [for (const x of l) { body }] *)
Fixpoint forEach {A} (l : list A) (body : A -> M unit) : M unit :=
  match l with
  | [] => ret tt
  | x :: rest => body x ;;; forEach rest body
  end.

(** The same loop with the position of each element. *)
Fixpoint forEachFrom {A} (i : nat) (l : list A) (body : nat -> A -> M unit)
    : M unit :=
  match l with
  | [] => ret tt
  | x :: rest => body i x ;;; forEachFrom (S i) rest body
  end.

(** *** Calls to the collaborators *)

(** One awaited call to Redis or to the database: rejected when the
    fault schedule says so. *)
Definition collaborator (operation : string) : M unit :=
  fun st =>
    match faults (world st) with
    | [] => (Ret tt, st)
    | false :: later => (Ret tt, onWorld (setFaults later) st)
    | true :: later => (Throw (Rejected operation), onWorld (setFaults later) st)
    end.

(** [Date.now()] *)
Definition now : M Z := gets (fun st => clock (world st)).

(** [client.get(key)]: [None] is [null]. *)
Definition clientGet (key : string) : M (option Z) :=
  collaborator "client.get" ;;;
  gets (fun st => balances (world st) !! key).

(** [client.set(key, value)] *)
Definition clientSet (key : string) (v : Z) : M unit :=
  collaborator "client.set" ;;;
  modify (onWorld (fun w => setBalances (<[key := v]> (balances w)) w)).

(** [HSET]: an existing field keeps its place, a new one goes last. *)
Fixpoint hashSet (field : string) (v : PendingData)
    (h : list (string * PendingData)) : list (string * PendingData) :=
  match h with
  | [] => [(field, v)]
  | (f, old) :: rest =>
      if String.eqb f field then (f, v) :: rest
      else (f, old) :: hashSet field v rest
  end.

(** [HDEL] *)
Definition hashDel (field : string) (h : list (string * PendingData))
    : list (string * PendingData) :=
  filter (fun e => negb (String.eqb (fst e) field)) h.

(** [db.query('INSERT ...', values, callback)] *)
Definition dbInsert (row : DbRow) : M unit :=
  collaborator "db.query" ;;;
  modify (onWorld (fun w => setDatabase (database w ++ [row]) w)).

(** Modelled from the spec: [acquireLock(key, ttl)] of the missing module
    [./lock], the capability [tryAcquire(key, ttl) -> bool]: it succeeds
    exactly when nobody holds the lock. *)
Definition acquireLock : M bool :=
  fun st =>
    if miningLock (world st) then (Ret false, st)
    else (Ret true, onWorld (fun w => setLock true (lockReleases w) w) st).

(** Modelled from the spec: [releaseLock(key)] of the missing module
    [./lock]; [lockReleases] counts the calls. *)
Definition releaseLock : M unit :=
  modify (onWorld (fun w => setLock false (S (lockReleases w)) w)).

Section Methods.
Context `{Primitives}.

(** *** Persistence methods of [Transaction] *)

(** [Transaction.save()] *)
Definition saveTransaction (tx : Transaction.t) : M unit :=
  dbInsert (TransactionRow tx).

(** [savePendingToRedis()] *)
Definition savePendingToRedis (tx : Transaction.t) : M unit :=
  let transactionData :=
    mkPending (Transaction.fromAddress tx) (Transaction.toAddress tx)
              (Transaction.amount tx) (Transaction.timestamp tx)
              (Transaction.signature tx) in
  collaborator "client.hSet" ;;;
  modify (onWorld (fun w =>
    setPendingPool (hashSet (Transaction.hash tx) transactionData
                            (pendingPool w)) w)).

(** The object built for one entry of the hash: the constructor call
    followed by [tx.hash = hash]. *)
Definition pendingObject (entry : string * PendingData) : Transaction.t :=
  let txData := snd entry in
  Transaction.setHash (fst entry)
    (Transaction.new (pFromAddress txData) (pToAddress txData)
       (pAmount txData) (pTimestamp txData) (pSignature txData) "").

(** [Transaction.loadPendingTransactionsFromRedis()] *)
Definition loadPendingTransactionsFromRedis : M (list Transaction.t) :=
  collaborator "client.hGetAll" ;;;
  gets (fun st => map pendingObject (pendingPool (world st))).

(** [Transaction.removePendingTransactionFromRedis(hash)] *)
Definition removePendingTransactionFromRedis (h : string) : M unit :=
  collaborator "client.hDel" ;;;
  modify (onWorld (fun w => setPendingPool (hashDel h (pendingPool w)) w)).

(** *** [Block.save()]

    Every caller pushes the block on the chain before saving it, and
    the transaction objects of a mined block are also the first
    elements of [this.pendingTransactions]. [save] writes
    [tx.blockHash] into those shared objects: [stamp] performs that
    write where the objects live, [aliased] being the number of them
    that the pending list shares. *)
Definition stamp (aliased : nat) (i : nat) (h : string) : M unit :=
  modify (onLedger (fun l =>
    let c := chain l in
    let c' :=
      alter (fun b =>
               Block.setTransactions
                 (alter (Transaction.setBlockHash h) i (Block.transactions b)) b)
            (length c - 1)%nat c in
    let p := pendingTransactions l in
    let p' := if (i <? aliased)%nat
              then alter (Transaction.setBlockHash h) i p else p in
    setPendingTransactions p' (setChain c' l))).

Definition saveMerkleProof (b : Block.t) (transactionHash : string) : M unit :=
  dbInsert (MerkleProofRow (Block.hash b) transactionHash).

Definition saveBlock (aliased : nat) (b : Block.t) : M unit :=
  dbInsert (BlockRow (Block.hash b) (Block.previousHash b)
              (Block.timestamp b) (Block.nonce b) (Block.difficulty b)
              (Block.merkleRoot b) (Block.index b)) ;;;
  forEachFrom 0 (Block.transactions b) (fun i tx =>
    stamp aliased i (Block.hash b) ;;;
    saveTransaction (Transaction.setBlockHash (Block.hash b) tx)) ;;;
  dbInsert (MerkleNodesRow (Block.hash b)
              (map Transaction.hash (Block.transactions b))) ;;;
  forEach (Block.transactions b) (fun tx =>
    saveMerkleProof b (Transaction.hash tx)).

(** *** Methods of [Blockchain] *)

(** The field initialisers of the constructor. *)
Definition initial : t :=
  mk [] 0 [] 100 2 "miner-address" "genesis-address".

(** [getLatestBlock()]: [None] is the [undefined] of an empty chain. *)
Definition getLatestBlock (l : t) : option Block.t :=
  last (chain l).

Definition balanceKey (address : option string) : string :=
  "wallet_balance_" +:+ stringOfNullable address.

(** [updateWalletBalance(address, amount)] *)
Definition updateWalletBalance (address : option string) (amt : Z) : M unit :=
  tryCatch
    (currentBalance <- clientGet (balanceKey address) ;;
     let currentBalance :=
       match currentBalance with
       | Some b => b
       | None => 0
       end in
     let newBalance := currentBalance + amt in
     clientSet (balanceKey address) newBalance)
    (fun _ => ret tt).

(** [getBalanceOfAddress(address)] *)
Definition getBalanceOfAddress (address : option string) : M Z :=
  tryCatch
    (balance <- clientGet (balanceKey address) ;;
     ret (match balance with
          | Some b => b
          | None => 0
          end))
    (fun _ => ret 0).

(** Running a search that may not end within the fuel. *)
Definition mine (fuel : nat) (d : nat) (b : Block.t) : M Block.t :=
  fun st =>
    match Block.mineBlock fuel d b with
    | Some mined => (Ret mined, st)
    | None => (Diverge, st)
    end.

(** A synchronous call that returns or throws. *)
Definition call {A} (r : outcome A) : M A := fun st => (r, st).

(** [createGenesisBlockWithReward(genesisAddress, initialReward)] *)
Definition createGenesisBlockWithReward (fuel : nat)
    (address : string) (initialReward : Z) : M unit :=
  ts <- now ;;
  let rewardTx :=
    Transaction.setSignature None
      (Transaction.new None address initialReward ts None "") in
  d <- gets (fun st => difficulty (ledger st)) ;;
  ts' <- now ;;
  genesisBlock <- mine fuel d (Block.new 0 "0" ts' [rewardTx] d) ;;
  modify (onLedger (fun l => setChain (chain l ++ [genesisBlock]) l)) ;;;
  saveBlock 0 genesisBlock ;;;
  updateWalletBalance (Some address) initialReward.

(** [addTransaction(transaction)] *)
Definition addTransaction (transaction : Transaction.t) : M value :=
  if negb (truthy (Transaction.fromAddress transaction))
     || negb (truthy (Some (Transaction.toAddress transaction)))
  then throw (Error "Transaction must include from and to address")
  else
    valid <- call (Transaction.isValid transaction) ;;
    if negb valid
    then throw (Error "Cannot add invalid transaction to chain")
    else if (Transaction.amount transaction <=? 0)%Z
    then throw (Error "Transaction amount must be greater than 0")
    else
      balance <- getBalanceOfAddress (Transaction.fromAddress transaction) ;;
      if (balance <? Transaction.amount transaction)%Z
      then throw (Error "Not enough balance")
      else
        updateWalletBalance (Transaction.fromAddress transaction)
                            (- Transaction.amount transaction) ;;;
        updateWalletBalance (Some (Transaction.toAddress transaction))
                            (Transaction.amount transaction) ;;;
        savePendingToRedis transaction ;;;
        modify (onLedger (fun l =>
          setPendingTransactions (pendingTransactions l ++ [transaction]) l)) ;;;
        ret VUndefined.

(** The body of the [try] block of [minePendingTransactions]. *)
Definition mineBody (fuel : nat) (miningRewardAddress : string) : M value :=
  loaded <- loadPendingTransactionsFromRedis ;;
  modify (onLedger (setPendingTransactions loaded)) ;;;
  l <- gets ledger ;;
  let lastBlock := getLatestBlock l in
  let blockTransactions := take (transactionThreshold l) (pendingTransactions l) in
  if (length blockTransactions =? 0)%nat
  then ret VUndefined
  else
    ts <- now ;;
    let rewardTx :=
      Transaction.new None miningRewardAddress (miningReward l) ts None "" in
    let blockTransactions' := blockTransactions ++ [rewardTx] in
    ts' <- now ;;
    let block :=
      Block.new
        (match lastBlock with Some b => Block.index b + 1 | None => 0 end)
        (match lastBlock with Some b => Block.hash b | None => "" end)
        ts' blockTransactions' (difficulty l) in
    mined <- mine fuel (difficulty l) block ;;
    modify (onLedger (fun l => setChain (chain l ++ [mined]) l)) ;;;
    saveBlock (length blockTransactions) mined ;;;
    forEach blockTransactions' (fun tx =>
      removePendingTransactionFromRedis (Transaction.hash tx) ;;;
      updateWalletBalance (Transaction.fromAddress tx) (- Transaction.amount tx) ;;;
      updateWalletBalance (Some (Transaction.toAddress tx)) (Transaction.amount tx)) ;;;
    ret VUndefined.

(** [minePendingTransactions(miningRewardAddress)] *)
Definition minePendingTransactions (fuel : nat) (miningRewardAddress : string)
    : M value :=
  lockAcquired <- acquireLock ;;
  if negb lockAcquired
  then ret VUndefined
  else
    tryFinally
      (tryCatch (mineBody fuel miningRewardAddress) (fun _ => ret VUndefined))
      releaseLock.

(** The three tests [isChainValid] makes on the block at position [i]. *)
Definition linkValid (previousBlock currentBlock : Block.t) : bool :=
  if negb (String.eqb (Block.hash currentBlock) (Block.calculateHash currentBlock))
  then false
  else if negb (String.eqb (Block.previousHash currentBlock) (Block.hash previousBlock))
  then false
  else if negb (String.eqb (Block.merkleRoot currentBlock)
                           (Block.calculateMerkleRoot currentBlock))
  then false
  else true.

(** [for (let i = ...; i < this.chain.length; i++)], [turns] being the
    number of turns left. *)
Fixpoint validLoop (c : list Block.t) (i : nat) (turns : nat) : bool :=
  match turns with
  | O => true
  | S turns' =>
      match c !! i, c !! (i - 1)%nat with
      | Some currentBlock, Some previousBlock =>
          if linkValid previousBlock currentBlock
          then validLoop c (S i) turns'
          else false
      | _, _ => true
      end
  end.

(** [isChainValid()] *)
Definition isChainValid (l : t) : bool :=
  validLoop (chain l) 1 (length (chain l) - 1).

End Methods.

End Blockchain.

(** ** Vocabulary of the properties *)

(** The balance of an address as the store holds it: the number under its
    key, 0 when the key is absent. *)
Definition balanceOf (address : option string) (b : gmap string Z) : Z :=
  default 0 (b !! Blockchain.balanceKey address).

(** The store after [amt] was added to the balance of [address]. *)
Definition deposit (address : option string) (amt : Z) (b : gmap string Z)
    : gmap string Z :=
  <[Blockchain.balanceKey address := balanceOf address b + amt]> b.

(** No call to a collaborator is going to be rejected. *)
Definition quiet (st : Blockchain.State) : Prop :=
  Blockchain.faults (Blockchain.world st) = [].

(** The next call to a collaborator is rejected. *)
Definition nextCallFails (st : Blockchain.State) : bool :=
  match Blockchain.faults (Blockchain.world st) with
  | true :: _ => true
  | _ => false
  end.

(** Run without faults from a state where [I] holds, [m] returns, leaves
    the world without faults and keeps [I]. *)
Definition quietly {A} (I : Blockchain.State -> Prop) (m : Blockchain.M A) : Prop :=
  forall st, quiet st -> I st ->
    (exists a, fst (m st) = Ret a) /\ quiet (snd (m st)) /\ I (snd (m st)).

(** The balance store and the pending pool hold [b] and [p]. *)
Definition storesAre (b : gmap string Z) (p : list (string * Blockchain.PendingData))
    (st : Blockchain.State) : Prop :=
  Blockchain.balances (Blockchain.world st) = b
  /\ Blockchain.pendingPool (Blockchain.world st) = p.

(** A transaction as it was before [Block.save] wrote its back-reference. *)
Definition unstamped (tx : Transaction.t) : Transaction.t :=
  Transaction.setBlockHash "" tx.

(** The state once the next call to a collaborator has been answered. *)
Definition popped (st : Blockchain.State) : Blockchain.State :=
  match Blockchain.faults (Blockchain.world st) with
  | [] => st
  | _ :: later => Blockchain.onWorld (Blockchain.setFaults later) st
  end.

(** [m] keeps [I] and ends, by a return or by a throw. *)
Definition safe {A} (I : Blockchain.State -> Prop) (m : Blockchain.M A) : Prop :=
  forall st, I st -> I (snd (m st)) /\ fst (m st) <> Diverge.

(** [I] does not look at what Redis and the database hold, nor at the
    fault schedule. *)
Definition worldStable (I : Blockchain.State -> Prop) : Prop :=
  forall st, I st ->
    (forall f, I (Blockchain.onWorld (Blockchain.setFaults f) st))
    /\ (forall b, I (Blockchain.onWorld (Blockchain.setBalances b) st))
    /\ (forall p, I (Blockchain.onWorld (Blockchain.setPendingPool p) st))
    /\ (forall d, I (Blockchain.onWorld (Blockchain.setDatabase d) st)).

(** [I] does not look at the ledger object. *)
Definition ledgerStable (I : Blockchain.State -> Prop) : Prop :=
  forall st f, I st -> I (Blockchain.onLedger f st).

(** The mining lock is held and was released [n] times so far. *)
Definition lockHeld (n : nat) (st : Blockchain.State) : Prop :=
  Blockchain.miningLock (Blockchain.world st) = true
  /\ Blockchain.lockReleases (Blockchain.world st) = n.

(** The chain is [old] followed by one block whose transactions are
    [target], back-references set aside. *)
Definition appended (old : list Block.t) (target : list Transaction.t)
    (st : Blockchain.State) : Prop :=
  exists b,
    Blockchain.chain (Blockchain.ledger st) = old ++ [b]
    /\ map unstamped (Block.transactions b) = target.

(** [I] survives the write of a back-reference by [Block.save]. *)
Definition stampStable (I : Blockchain.State -> Prop) : Prop :=
  forall st aliased i h, I st -> I (snd (Blockchain.stamp aliased i h st)).

Section CryptoVocabulary.
Context `{Primitives}.

(** Two different inputs with the same digest. *)
Definition collide (x y : string) : Prop :=
  x <> y /\ sha256 x = sha256 y.

(** A signature that verifies under [publicKey] for the digest [h] does
    not verify for the other digest [h']. *)
Definition bindsDigest (publicKey sg h h' : string) : Prop :=
  ecVerify publicKey h sg = Some true ->
  ecVerify publicKey h' sg = Some true -> h = h'.

End CryptoVocabulary.

Section MiningVocabulary.
Context `{Primitives}.

(** The pending pool as [minePendingTransactions] reads it. *)
Definition snapshot (st : Blockchain.State) : list Transaction.t :=
  map Blockchain.pendingObject (Blockchain.pendingPool (Blockchain.world st)).

(** The transactions taken from the pool for the next block. *)
Definition batchOf (st : Blockchain.State) : list Transaction.t :=
  take (Blockchain.transactionThreshold (Blockchain.ledger st)) (snapshot st).

(** The reward transaction of the next block. *)
Definition rewardFor (miner : string) (st : Blockchain.State) : Transaction.t :=
  Transaction.new None miner (Blockchain.miningReward (Blockchain.ledger st))
    (Blockchain.clock (Blockchain.world st)) None "".

(** The block handed to [mineBlock]. *)
Definition candidate (miner : string) (st : Blockchain.State) : Block.t :=
  let lastBlock := Blockchain.getLatestBlock (Blockchain.ledger st) in
  Block.new
    (match lastBlock with Some b => Block.index b + 1 | None => 0 end)
    (match lastBlock with Some b => Block.hash b | None => "" end)
    (Blockchain.clock (Blockchain.world st))
    (batchOf st ++ [rewardFor miner st])
    (Blockchain.difficulty (Blockchain.ledger st)).

(** The state in which the nonce search starts: lock taken, snapshot read
    and stored in [this.pendingTransactions]. *)
Definition staged (st : Blockchain.State) : Blockchain.State :=
  Blockchain.onLedger (Blockchain.setPendingTransactions (snapshot st))
    (popped (Blockchain.onWorld
               (fun w => Blockchain.setLock true (Blockchain.lockReleases w) w) st)).

(** What follows [mineBlock] inside the [try] block: push, save, drain. *)
Definition afterMining (batch : list Transaction.t) (reward : Transaction.t)
    (mined : Block.t) : Blockchain.M value :=
  Blockchain.bind
    (Blockchain.modify (Blockchain.onLedger (fun l =>
       Blockchain.setChain (Blockchain.chain l ++ [mined]) l)))
    (fun _ =>
  Blockchain.bind (Blockchain.saveBlock (length batch) mined) (fun _ =>
  Blockchain.bind
    (Blockchain.forEach (batch ++ [reward]) (fun tx =>
       Blockchain.bind
         (Blockchain.removePendingTransactionFromRedis (Transaction.hash tx))
         (fun _ =>
       Blockchain.bind
         (Blockchain.updateWalletBalance (Transaction.fromAddress tx)
            (- Transaction.amount tx))
         (fun _ =>
       Blockchain.updateWalletBalance (Some (Transaction.toAddress tx))
         (Transaction.amount tx)))))
    (fun _ => Blockchain.ret VUndefined))).

End MiningVocabulary.

(** The balance deltas of one mined transaction, as the drain loop of
    [minePendingTransactions] writes them. *)
Definition settleOne (b : gmap string Z) (tx : Transaction.t) : gmap string Z :=
  deposit (Some (Transaction.toAddress tx)) (Transaction.amount tx)
    (deposit (Transaction.fromAddress tx) (- Transaction.amount tx) b).

Definition settle (txs : list Transaction.t) (b : gmap string Z) : gmap string Z :=
  fold_left settleOne txs b.

(** The pool once the hashes of [txs] were deleted from it. *)
Definition drained (txs : list Transaction.t)
    (p : list (string * Blockchain.PendingData)) : list (string * Blockchain.PendingData) :=
  fold_left (fun p tx => Blockchain.hashDel (Transaction.hash tx) p) txs p.

(** ** A tampered genesis block *)

Section Forgery.
Context `{Primitives}.

(** A block whose stored hash and stored Merkle root both differ from
    the recomputed ones, whatever the digest function is. *)
Definition forgedGenesis : Block.t :=
  let b := Block.mk 0 "0" 0 [] 0 "" 0 "" in
  Block.setHash (if String.eqb (Block.calculateHash b) "" then "0" else "") b.

End Forgery.

(** ** Stand-ins for the collaborators

    A concrete [Primitives] on which the model runs: a digest that marks
    inputs starting with "72" by two leading zeros, and a signature scheme
    whose signature of a digest under a key is the key followed by the
    digest. Both are injective where the real ones are collision free. *)

Module Sample.

Definition digest (s : string) : string :=
  (if String.prefix "72" s then "00" else "ff") +:+ s.

Definition signatureOf (publicKey h : string) : string :=
  publicKey +:+ h.

Definition verify (publicKey h sg : string) : option bool :=
  if String.eqb publicKey "" then None
  else Some (String.eqb sg (signatureOf publicKey h)).

#[global] Instance primitives : Primitives := {|
  sha256 := digest;
  ecVerify := verify;
  merkleRootHash := joinWith "|"
|}.

(** An unmined block whose digest input is its timestamp, its nonce and
    the empty transaction array. *)
Definition rawBlock : Block.t := Block.mk 0 "" 7 [] 2 "" 0 "".

(** Alice pays Bob 50 and signs. *)
Definition unsignedPayment : Transaction.t :=
  Transaction.new (Some "alice") "bob" 50 5 None "".

Definition payment : Transaction.t :=
  Transaction.setSignature
    (Some (signatureOf "alice" (Transaction.calculateHash unsignedPayment)))
    unsignedPayment.

(** Alice signs a payment of 500. *)
Definition overdraft : Transaction.t :=
  let unsignedOverdraft := Transaction.new (Some "alice") "bob" 500 6 None "" in
  Transaction.setSignature
    (Some (signatureOf "alice" (Transaction.calculateHash unsignedOverdraft)))
    unsignedOverdraft.

Definition emptyWorld : Blockchain.World :=
  Blockchain.mkWorld ∅ [] false 0 [] 1000 [].

(** The ledger once the constructor has created the genesis block. *)
Definition started : Blockchain.State :=
  snd (Blockchain.createGenesisBlockWithReward 0 "genesis-address" 1000000
         (Blockchain.mkState Blockchain.initial emptyWorld)).

(** Nobody but the genesis address is funded. *)
Definition unfunded : Blockchain.State := started.

(** Alice was credited 100. *)
Definition funded : Blockchain.State :=
  snd (Blockchain.updateWalletBalance (Some "alice") 100 started).

(** The state after Alice's payment was accepted. *)
Definition queued : Blockchain.State :=
  snd (Blockchain.addTransaction payment funded).

(** Alice pays Bob 30 more. *)
Definition secondPayment : Transaction.t :=
  let unsignedSecond := Transaction.new (Some "alice") "bob" 30 6 None "" in
  Transaction.setSignature
    (Some (signatureOf "alice" (Transaction.calculateHash unsignedSecond)))
    unsignedSecond.

(** Both payments accepted: the pool has reached the threshold. *)
Definition ready : Blockchain.State :=
  snd (Blockchain.addTransaction secondPayment queued).

(** Alice funded, with a Redis that answers one call and rejects the
    next. *)
Definition flaky : Blockchain.State :=
  Blockchain.onWorld (Blockchain.setFaults [false; true]) funded.

(** Alice's payment queued, while another miner holds the lock. *)
Definition locked : Blockchain.State :=
  Blockchain.onWorld (Blockchain.setLock true 0) queued.

(** The ledger after the two payments were mined: genesis block and one
    mined block. *)
Definition mined : Blockchain.t :=
  Blockchain.ledger (snd (Blockchain.minePendingTransactions 0 "miner-address" ready)).

(** The chain of [mined] with the nonce of block [i] overwritten. *)
Definition tampered (i : nat) : Blockchain.t :=
  Blockchain.setChain (alter (Block.setNonce 5) i (Blockchain.chain mined)) mined.

End Sample.

(** * Properties *)

(** ** Strings *)

Lemma string_app_nil (t : string) : EmptyString +:+ t = t.
Proof. reflexivity. Qed.

Lemma string_app_cons (c : ascii) (s t : string) :
  String c s +:+ t = String c (s +:+ t).
Proof. reflexivity. Qed.

Lemma string_app_length (s t : string) :
  String.length (s +:+ t) = (String.length s + String.length t)%nat.
Proof.
  induction s as [|c s IH]; [reflexivity|].
  rewrite string_app_cons. cbn. now rewrite IH.
Qed.

Lemma string_app_inv_tail (s1 s2 t : string) :
  s1 +:+ t = s2 +:+ t -> s1 = s2.
Proof.
  revert s2. induction s1 as [|c s1 IH]; intros [|d s2] E;
    rewrite ?string_app_nil, ?string_app_cons in E.
  - reflexivity.
  - apply (f_equal String.length) in E. cbn in E.
    rewrite string_app_length in E. lia.
  - apply (f_equal String.length) in E. cbn in E.
    rewrite string_app_length in E. lia.
  - injection E as -> E. f_equal. now apply IH.
Qed.

Lemma prefix_zeros_leading (d : nat) (h : string) :
  String.eqb (substring 0 d h) (zeros d) = true -> (d <= leadingZeros h)%nat.
Proof.
  revert h. induction d as [|d IH]; intros h E; [lia|].
  destruct h as [|c h]; cbn in E; [discriminate|].
  cbn. destruct (Ascii.eqb c "0"); [|discriminate].
  apply IH in E. lia.
Qed.

Lemma leading_prefix_zeros (d : nat) (h : string) :
  (d <= leadingZeros h)%nat -> String.eqb (substring 0 d h) (zeros d) = true.
Proof.
  revert h. induction d as [|d IH]; intros h L.
  - destruct h; reflexivity.
  - destruct h as [|c h]; cbn in L; [lia|].
    cbn. destruct (Ascii.eqb c "0"); [|lia].
    apply IH. lia.
Qed.

(** ** Transactions *)

Section TransactionFacts.
Context `{Primitives}.

Lemma hashInput_amount_inj (tx : Transaction.t) (a : Z) :
  Transaction.hashInput (Transaction.setAmount a tx) = Transaction.hashInput tx ->
  a = Transaction.amount tx.
Proof.
  unfold Transaction.hashInput. cbn. intros E.
  apply String.app_inj in E. apply String.app_inj in E.
  apply string_app_inv_tail in E. now apply pretty_Z_inj in E.
Qed.

Lemma isValid_returns (tx : Transaction.t) :
  exists b, Transaction.isValid tx = Ret b.
Proof.
  unfold Transaction.isValid.
  destruct (Transaction.fromAddress tx); [|eauto].
  destruct (Transaction.signature tx) as [sg|]; [|eauto].
  destruct (String.eqb sg ""); [eauto|].
  destruct (ecVerify _ _ _); eauto.
Qed.

End TransactionFacts.

Lemma sample_digest_inj (x y : string) :
  Sample.digest x = Sample.digest y -> x = y.
Proof.
  unfold Sample.digest.
  destruct (String.prefix "72" x), (String.prefix "72" y);
    rewrite !string_app_cons, !string_app_nil; intros E;
    solve [ now injection E | discriminate E ].
Qed.

Lemma sample_verify_binds (publicKey h h' sg : string) :
  Sample.verify publicKey h sg = Some true ->
  Sample.verify publicKey h' sg = Some true -> h = h'.
Proof.
  unfold Sample.verify, Sample.signatureOf.
  destruct (String.eqb publicKey ""); [discriminate|].
  intros E1 E2. injection E1 as E1. injection E2 as E2.
  apply String.eqb_eq in E1, E2. rewrite E1 in E2.
  now apply String.app_inj in E2.
Qed.

(** C6: [isValid()] answers [true] for every transaction whose sender is
    [null]; for a sender that is not [null] it answers [false] when the
    signature is missing or empty, and otherwise the verdict of the
    signature check of the sender key on the recomputed content hash, a
    check that throws counting as [false]. It returns a boolean on every
    transaction: it never throws. *)
Theorem isValid_never_throws `{Primitives} (tx : Transaction.t) :
  (Transaction.fromAddress tx = None -> Transaction.isValid tx = Ret true)
  /\ (forall publicKey,
        Transaction.fromAddress tx = Some publicKey ->
        Transaction.signature tx = None \/ Transaction.signature tx = Some "" ->
        Transaction.isValid tx = Ret false)
  /\ (forall publicKey sg,
        Transaction.fromAddress tx = Some publicKey ->
        Transaction.signature tx = Some sg -> sg <> "" ->
        Transaction.isValid tx =
          Ret (match ecVerify publicKey (Transaction.calculateHash tx) sg with
               | Some verified => verified
               | None => false
               end))
  /\ (exists b, Transaction.isValid tx = Ret b).
Proof.
  unfold Transaction.isValid. repeat split.
  - intros ->. reflexivity.
  - intros publicKey -> [-> | ->]; reflexivity.
  - intros publicKey sg -> -> ne.
    apply String.eqb_neq in ne. rewrite ne.
    destruct (ecVerify _ _ _); reflexivity.
  - apply isValid_returns.
Qed.

(** Alice's signed payment is valid, by the signature check. *)
Lemma isValid_never_throws_witness :
  Transaction.isValid Sample.payment = Ret true.
Proof.
  rewrite (proj1 (proj2 (proj2 (isValid_never_throws Sample.payment)))
             "alice" _ eq_refl eq_refl).
  - vm_compute. reflexivity.
  - vm_compute. discriminate.
Defined.

(** C9: the content hash is a function of the four fields [fromAddress],
    [toAddress], [amount] and [timestamp]: transactions that agree on them
    have the same hash, and writing [signature], [blockHash] or the stored
    [hash] leaves the recomputed hash as it was. Changing the amount
    changes the hashed content; so, unless the old and the new content
    collide under the digest or the signature verifies for both digests, a
    valid transaction with a sender is no longer valid once its amount is
    changed. *)
Theorem calculateHash_four_fields `{Primitives} :
  (forall tx tx',
     Transaction.fromAddress tx = Transaction.fromAddress tx' ->
     Transaction.toAddress tx = Transaction.toAddress tx' ->
     Transaction.amount tx = Transaction.amount tx' ->
     Transaction.timestamp tx = Transaction.timestamp tx' ->
     Transaction.calculateHash tx = Transaction.calculateHash tx')
  /\ (forall tx sg bh h,
        Transaction.calculateHash (Transaction.setSignature sg tx)
          = Transaction.calculateHash tx
        /\ Transaction.calculateHash (Transaction.setBlockHash bh tx)
             = Transaction.calculateHash tx
        /\ Transaction.calculateHash (Transaction.setHash h tx)
             = Transaction.calculateHash tx)
  /\ (forall tx a,
        a <> Transaction.amount tx ->
        Transaction.hashInput (Transaction.setAmount a tx) <> Transaction.hashInput tx)
  /\ (forall tx a,
        Transaction.fromAddress tx <> None ->
        Transaction.isValid tx = Ret true ->
        a <> Transaction.amount tx ->
        ~ collide (Transaction.hashInput (Transaction.setAmount a tx))
                  (Transaction.hashInput tx) ->
        (forall publicKey sg,
           bindsDigest publicKey sg
             (Transaction.calculateHash (Transaction.setAmount a tx))
             (Transaction.calculateHash tx)) ->
        Transaction.isValid (Transaction.setAmount a tx) = Ret false).
Proof.
  split; [|split; [|split]].
  - intros tx tx' Ef Et Ea Es.
    unfold Transaction.calculateHash, Transaction.hashInput.
    now rewrite Ef, Et, Ea, Es.
  - intros tx sg bh h. repeat split.
  - intros tx a changed same. now apply changed, hashInput_amount_inj.
  - intros tx a sender valid changed noCollision binds.
    unfold Transaction.isValid in *. cbn.
    destruct (Transaction.fromAddress tx) as [publicKey|]; [|contradiction].
    destruct (Transaction.signature tx) as [sg|]; [|discriminate].
    destruct (String.eqb sg ""); [discriminate|].
    destruct (ecVerify publicKey (Transaction.calculateHash tx) sg)
      as [[|]|] eqn:before; try discriminate.
    destruct (ecVerify publicKey
                (Transaction.calculateHash (Transaction.setAmount a tx)) sg)
      as [[|]|] eqn:after; try reflexivity.
    exfalso. apply noCollision. split.
    + intros same. now apply changed, hashInput_amount_inj.
    + exact (binds publicKey sg after before).
Qed.

(** Raising the amount of Alice's signed payment from 50 to 60 makes it
    invalid. *)
Lemma calculateHash_four_fields_witness :
  Transaction.isValid (Transaction.setAmount 60 Sample.payment) = Ret false.
Proof.
  apply (proj2 (proj2 (proj2 (@calculateHash_four_fields Sample.primitives)))
           Sample.payment 60).
  - discriminate.
  - vm_compute. reflexivity.
  - discriminate.
  - intros [different same]. apply different. now apply sample_digest_inj.
  - intros publicKey sg. unfold bindsDigest. apply sample_verify_binds.
Defined.

(** ** Blocks *)

Lemma meetsDifficulty_zero `{Primitives} (b : Block.t) :
  Block.meetsDifficulty 0 b = true.
Proof. unfold Block.meetsDifficulty. now destruct (Block.hash b). Qed.

Lemma mineBlock_zero `{Primitives} (fuel : nat) (b : Block.t) :
  Block.mineBlock fuel 0 b = Some b.
Proof. destruct fuel; cbn; now rewrite meetsDifficulty_zero. Qed.

(** C7: whenever [mineBlock(d)] returns, the hash of the block starts with
    at least [d] zero characters; [mineBlock(0)] returns at once, without a
    turn of the loop, whatever fuel it is given: the block is unchanged, and
    the nonce of a block fresh from the constructor is still 0. *)
Theorem mineBlock_meets_difficulty `{Primitives} :
  (forall fuel d b mined,
     Block.mineBlock fuel d b = Some mined ->
     (d <= leadingZeros (Block.hash mined))%nat)
  /\ (forall fuel b, Block.mineBlock fuel 0 b = Some b)
  /\ (forall fuel i prev ts txs d,
        Block.nonce <$> Block.mineBlock fuel 0 (Block.new i prev ts txs d)
          = Some 0).
Proof.
  split; [|split].
  - induction fuel as [|fuel IH]; intros d b mined; cbn;
      destruct (Block.meetsDifficulty d b) eqn:met; intros E;
      try discriminate; try (now apply IH in E).
    + injection E as <-. now apply prefix_zeros_leading.
    + injection E as <-. now apply prefix_zeros_leading.
  - apply mineBlock_zero.
  - intros fuel i prev ts txs d. now rewrite mineBlock_zero.
Qed.

(** A search that takes two turns: the third nonce gives a hash with two
    leading zeros. *)
Lemma mineBlock_meets_difficulty_witness :
  exists mined,
    Block.mineBlock 5 2 Sample.rawBlock = Some mined
    /\ Block.nonce mined = 2
    /\ (2 <= leadingZeros (Block.hash mined))%nat.
Proof.
  eexists. split; [vm_compute; reflexivity|]. split; [reflexivity|].
  apply (proj1 (@mineBlock_meets_difficulty Sample.primitives)
           5%nat 2%nat Sample.rawBlock).
  vm_compute. reflexivity.
Defined.

(** ** Chain validation *)

Section ChainFacts.
Context `{Primitives}.

(** The loop looks at block 0 only as the predecessor of block 1, and
    there only at its stored hash. *)
Lemma validLoop_genesis (b b' : Block.t) (rest : list Block.t) :
  Block.hash b' = Block.hash b ->
  forall turns i, (1 <= i)%nat ->
    Blockchain.validLoop (b' :: rest) i turns
      = Blockchain.validLoop (b :: rest) i turns.
Proof.
  intros sameHash. induction turns as [|turns IH]; intros i pos; [reflexivity|].
  destruct i as [|[|i]]; [lia| |]; cbn.
  - destruct (rest !! 0%nat) as [currentBlock|]; [|reflexivity].
    unfold Blockchain.linkValid. rewrite sameHash.
    rewrite (IH 2%nat) by lia. reflexivity.
  - rewrite (IH (S (S (S i)))) by lia. reflexivity.
Qed.

Lemma forgedGenesis_fails_self_checks :
  Block.hash forgedGenesis <> Block.calculateHash forgedGenesis
  /\ Block.merkleRoot forgedGenesis <> Block.calculateMerkleRoot forgedGenesis.
Proof.
  split; [|discriminate].
  unfold forgedGenesis.
  set (b := Block.mk 0 "0" 0 [] 0 "" 0 "").
  change (Block.calculateHash (Block.setHash _ b)) with (Block.calculateHash b).
  cbn. destruct (String.eqb_spec (Block.calculateHash b) "") as [-> | ne].
  - discriminate.
  - congruence.
Qed.

End ChainFacts.

(** On the sample chain of two blocks, a nonce overwritten in block 1 is
    detected and the same change in the genesis block is not, although the
    stored hash of the genesis block no longer matches. *)
Lemma isChainValid_on_sample_chain :
  Blockchain.isChainValid Sample.mined = true
  /\ Blockchain.isChainValid (Sample.tampered 1) = false
  /\ Blockchain.isChainValid (Sample.tampered 0) = true
  /\ (exists b,
        Blockchain.chain (Sample.tampered 0) !! 0%nat = Some b
        /\ Block.hash b <> Block.calculateHash b).
Proof.
  repeat split; try (vm_compute; reflexivity).
  eexists. split; [vm_compute; reflexivity|]. vm_compute. discriminate.
Qed.

(** C1: what [isChainValid()] does with the genesis block. A chain of one
    block is reported valid whatever that block holds; replacing block 0 by
    any block with the same stored hash never changes the verdict; and
    there is a genesis block failing both its hash and its Merkle root
    self-check that [isChainValid()] accepts. The loop starts at index 1
    and tests only the block at the current index. *)
Theorem isChainValid_skips_genesis `{Primitives} :
  (forall l b, Blockchain.chain l = [b] -> Blockchain.isChainValid l = true)
  /\ (forall l b b' rest,
        Blockchain.chain l = b :: rest ->
        Block.hash b' = Block.hash b ->
        Blockchain.isChainValid (Blockchain.setChain (b' :: rest) l)
          = Blockchain.isChainValid l)
  /\ (exists b,
        Block.hash b <> Block.calculateHash b
        /\ Block.merkleRoot b <> Block.calculateMerkleRoot b
        /\ Blockchain.isChainValid
             (Blockchain.setChain [b] Blockchain.initial) = true).
Proof.
  split; [|split].
  - intros l b E. unfold Blockchain.isChainValid. now rewrite E.
  - intros l b b' rest E sameHash. unfold Blockchain.isChainValid.
    rewrite E. cbn. now apply validLoop_genesis.
  - exists forgedGenesis.
    destruct forgedGenesis_fails_self_checks as [badHash badRoot].
    repeat split; assumption.
Qed.

(** ** Running the ledger *)

Import Blockchain.
Local Open Scope js_scope.

Section LedgerFacts.
Context `{Primitives}.

Lemma collaborator_quiet (operation : string) (st : State) :
  quiet st -> collaborator operation st = (Ret tt, st).
Proof. unfold quiet, collaborator. now intros ->. Qed.

Lemma getBalanceOfAddress_returns (address : option string) (st : State) :
  exists z, fst (getBalanceOfAddress address st) = Ret z.
Proof.
  unfold getBalanceOfAddress, tryCatch, clientGet, bind, collaborator, gets, ret.
  destruct (faults (world st)) as [|[|] later]; cbn; eauto.
Qed.

Lemma getBalanceOfAddress_state (address : option string) (st : State) :
  ledger (snd (getBalanceOfAddress address st)) = ledger st
  /\ snd (getBalanceOfAddress address st)
       = onWorld (setFaults (tail (faults (world st)))) st.
Proof.
  unfold getBalanceOfAddress, tryCatch, clientGet, bind, collaborator, gets, ret.
  destruct st as [l [b p k r d c f]]. cbn.
  destruct f as [|[|] later]; cbn; auto.
Qed.

Lemma getBalanceOfAddress_value (address : option string) (st : State) :
  fst (getBalanceOfAddress address st)
    = Ret (if nextCallFails st then 0
           else balanceOf address (balances (world st))).
Proof.
  unfold getBalanceOfAddress, tryCatch, clientGet, bind, collaborator, gets, ret,
    nextCallFails, balanceOf.
  destruct (faults (world st)) as [|[|] later]; cbn; reflexivity.
Qed.

Lemma updateWalletBalance_quiet (address : option string) (amt : Z) (st : State) :
  quiet st ->
  updateWalletBalance address amt st
    = (Ret tt, onWorld (fun w => setBalances (deposit address amt (balances w)) w) st).
Proof.
  intros q. unfold updateWalletBalance, tryCatch, clientGet, clientSet, bind.
  rewrite collaborator_quiet by assumption. cbn.
  rewrite collaborator_quiet by assumption. cbn.
  unfold onWorld, deposit, balanceOf.
  now destruct (balances (world st) !! balanceKey address).
Qed.

Lemma savePendingToRedis_quiet (tx : Transaction.t) (st : State) :
  quiet st ->
  savePendingToRedis tx st
    = (Ret tt,
       onWorld (fun w =>
         setPendingPool
           (hashSet (Transaction.hash tx)
              (mkPending (Transaction.fromAddress tx) (Transaction.toAddress tx)
                 (Transaction.amount tx) (Transaction.timestamp tx)
                 (Transaction.signature tx))
              (pendingPool w)) w) st).
Proof.
  intros q. unfold savePendingToRedis, bind.
  now rewrite collaborator_quiet by assumption.
Qed.

Lemma hashSet_stores (field : string) (v : PendingData)
    (h : list (string * PendingData)) :
  In (field, v) (hashSet field v h).
Proof.
  induction h as [|[f old] h IH]; cbn; [now left|].
  destruct (String.eqb_spec f field) as [-> | ne]; cbn; auto.
Qed.

Lemma balanceKey_inj (a b : option string) :
  balanceKey (Some (stringOfNullable a)) = balanceKey (Some (stringOfNullable b)) ->
  stringOfNullable a = stringOfNullable b.
Proof. unfold balanceKey. cbn. apply String.app_inj. Qed.

Lemma balanceOf_deposit_same (a : option string) (amt : Z) (b : gmap string Z) :
  balanceOf a (deposit a amt b) = balanceOf a b + amt.
Proof. unfold balanceOf at 1, deposit. now rewrite lookup_insert_eq. Qed.

Lemma balanceOf_deposit_other (a a' : option string) (amt : Z) (b : gmap string Z) :
  balanceKey a <> balanceKey a' ->
  balanceOf a' (deposit a amt b) = balanceOf a' b.
Proof. intros ne. unfold balanceOf, deposit. now rewrite lookup_insert_ne. Qed.

(** The run of [addTransaction] that stops at the balance test. *)
Lemma addTransaction_poor (tx : Transaction.t) (st : State) :
  truthy (Transaction.fromAddress tx) = true ->
  truthy (Some (Transaction.toAddress tx)) = true ->
  Transaction.isValid tx = Ret true ->
  0 < Transaction.amount tx ->
  balanceOf (Transaction.fromAddress tx) (balances (world st)) < Transaction.amount tx ->
  addTransaction tx st
    = (Throw (Error "Not enough balance"),
       onWorld (setFaults (tail (faults (world st)))) st).
Proof.
  intros hasFrom hasTo valid positive poor.
  unfold addTransaction. rewrite hasFrom, hasTo. cbn [negb orb].
  unfold bind at 1, call. rewrite valid. cbn [negb].
  destruct (Z.leb_spec (Transaction.amount tx) 0) as [|_]; [lia|].
  unfold bind at 1.
  pose proof (getBalanceOfAddress_value (Transaction.fromAddress tx) st) as value.
  pose proof (getBalanceOfAddress_state (Transaction.fromAddress tx) st) as [_ state].
  destruct (getBalanceOfAddress (Transaction.fromAddress tx) st) as [[z|e|] st'];
    cbn in value, state; try discriminate.
  injection value as ->. subst st'.
  assert (((if nextCallFails st then 0
            else balanceOf (Transaction.fromAddress tx) (balances (world st)))
           <? Transaction.amount tx) = true) as ->.
  { apply Z.ltb_lt. destruct (nextCallFails st); lia. }
  reflexivity.
Qed.

(** The run of [addTransaction] that accepts, no call being rejected. *)
Lemma addTransaction_rich (tx : Transaction.t) (st : State) :
  quiet st ->
  truthy (Transaction.fromAddress tx) = true ->
  truthy (Some (Transaction.toAddress tx)) = true ->
  Transaction.isValid tx = Ret true ->
  0 < Transaction.amount tx ->
  Transaction.amount tx <= balanceOf (Transaction.fromAddress tx) (balances (world st)) ->
  addTransaction tx st
    = (Ret VUndefined,
       mkState
         (setPendingTransactions (pendingTransactions (ledger st) ++ [tx]) (ledger st))
         (setPendingPool
            (hashSet (Transaction.hash tx)
               (mkPending (Transaction.fromAddress tx) (Transaction.toAddress tx)
                  (Transaction.amount tx) (Transaction.timestamp tx)
                  (Transaction.signature tx))
               (pendingPool (world st)))
            (setBalances
               (deposit (Some (Transaction.toAddress tx)) (Transaction.amount tx)
                  (deposit (Transaction.fromAddress tx) (- Transaction.amount tx)
                     (balances (world st))))
               (world st)))).
Proof.
  intros q hasFrom hasTo valid positive rich.
  unfold addTransaction. rewrite hasFrom, hasTo. cbn [negb orb].
  unfold bind at 1, call. rewrite valid. cbn [negb].
  destruct (Z.leb_spec (Transaction.amount tx) 0) as [|_]; [lia|].
  unfold bind at 1.
  pose proof (getBalanceOfAddress_value (Transaction.fromAddress tx) st) as value.
  pose proof (getBalanceOfAddress_state (Transaction.fromAddress tx) st) as [_ state].
  destruct (getBalanceOfAddress (Transaction.fromAddress tx) st) as [[z|e|] st'];
    cbn in value, state; try discriminate.
  injection value as ->. subst st'.
  unfold nextCallFails. rewrite q. cbn [tail].
  replace (onWorld (setFaults []) st) with st
    by (destruct st as [l [b p k r d c f]]; unfold quiet in q; cbn in q; now subst f).
  destruct (Z.ltb_spec (balanceOf (Transaction.fromAddress tx) (balances (world st)))
              (Transaction.amount tx)) as [|_]; [lia|].
  unfold bind at 1. rewrite updateWalletBalance_quiet by assumption.
  unfold bind at 1. rewrite updateWalletBalance_quiet by (exact q).
  unfold bind at 1. rewrite savePendingToRedis_quiet by (exact q).
  reflexivity.
Qed.

Lemma addTransaction_rejects (tx : Transaction.t) (st : State) :
  balances (world st) !! balanceKey (Transaction.fromAddress tx) = None ->
  0 < Transaction.amount tx ->
  exists msg, fst (addTransaction tx st) = Throw (Error msg).
Proof.
  intros unfunded positive. unfold addTransaction.
  destruct (negb (truthy (Transaction.fromAddress tx))
            || negb (truthy (Some (Transaction.toAddress tx)))); [cbn; eauto|].
  unfold bind at 1, call.
  destruct (isValid_returns tx) as [[|] ->]; cbn [negb]; [|cbn; eauto].
  destruct (Z.leb_spec (Transaction.amount tx) 0) as [|_]; [lia|].
  unfold bind at 1.
  pose proof (getBalanceOfAddress_value (Transaction.fromAddress tx) st) as value.
  destruct (getBalanceOfAddress (Transaction.fromAddress tx) st) as [[z|e|] st'];
    cbn in value; try discriminate.
  injection value as ->.
  assert (((if nextCallFails st then 0
            else balanceOf (Transaction.fromAddress tx) (balances (world st)))
           <? Transaction.amount tx) = true) as ->.
  { apply Z.ltb_lt. unfold balanceOf. rewrite unfunded. cbn.
    destruct (nextCallFails st); lia. }
  cbn. eauto.
Qed.

End LedgerFacts.

(** C5: a transaction with sender and recipient, a valid signature and a
    positive amount, whose sender holds less than the amount, is refused
    with the error "Not enough balance"; the ledger object (chain and
    in-memory pending list), every balance and the pending pool are left as
    they were. *)
Theorem addTransaction_insufficient_balance `{Primitives}
    (tx : Transaction.t) (st : State) :
  truthy (Transaction.fromAddress tx) = true ->
  truthy (Some (Transaction.toAddress tx)) = true ->
  Transaction.isValid tx = Ret true ->
  0 < Transaction.amount tx ->
  balanceOf (Transaction.fromAddress tx) (balances (world st)) < Transaction.amount tx ->
  fst (addTransaction tx st) = Throw (Error "Not enough balance")
  /\ ledger (snd (addTransaction tx st)) = ledger st
  /\ balances (world (snd (addTransaction tx st))) = balances (world st)
  /\ pendingPool (world (snd (addTransaction tx st))) = pendingPool (world st)
  /\ database (world (snd (addTransaction tx st))) = database (world st).
Proof.
  intros hasFrom hasTo valid positive poor.
  rewrite addTransaction_poor by assumption. cbn. repeat split; reflexivity.
Qed.

(** Alice holds 100 and signs a payment of 500: refused. *)
Lemma addTransaction_insufficient_balance_witness :
  fst (addTransaction Sample.overdraft Sample.funded)
    = Throw (Error "Not enough balance").
Proof.
  apply (addTransaction_insufficient_balance Sample.overdraft Sample.funded).
  - reflexivity.
  - reflexivity.
  - vm_compute. reflexivity.
  - reflexivity.
  - vm_compute. reflexivity.
Defined.

(** C4 (amended): when no call to Redis is rejected, a transaction that
    passes the four intake checks is accepted: the amount is taken from the
    balance of the sender, then added to the balance of the recipient, the
    transaction is stored in the Redis pool under its hash and pushed on the
    in-memory pending list, the chain is untouched, and the call returns
    [undefined] (the hash is logged, not returned). With a recipient other
    than the sender, the sender ends with the amount less and the recipient
    with the amount more. *)
Theorem addTransaction_accepts `{Primitives} (tx : Transaction.t) (st : State) :
  quiet st ->
  truthy (Transaction.fromAddress tx) = true ->
  truthy (Some (Transaction.toAddress tx)) = true ->
  Transaction.isValid tx = Ret true ->
  0 < Transaction.amount tx ->
  Transaction.amount tx <= balanceOf (Transaction.fromAddress tx) (balances (world st)) ->
  let st' := snd (addTransaction tx st) in
  let data :=
    mkPending (Transaction.fromAddress tx) (Transaction.toAddress tx)
      (Transaction.amount tx) (Transaction.timestamp tx) (Transaction.signature tx) in
  fst (addTransaction tx st) = Ret VUndefined
  /\ balances (world st')
       = deposit (Some (Transaction.toAddress tx)) (Transaction.amount tx)
           (deposit (Transaction.fromAddress tx) (- Transaction.amount tx)
              (balances (world st)))
  /\ (Transaction.fromAddress tx <> Some (Transaction.toAddress tx) ->
        balanceOf (Transaction.fromAddress tx) (balances (world st'))
          = balanceOf (Transaction.fromAddress tx) (balances (world st))
            - Transaction.amount tx
        /\ balanceOf (Some (Transaction.toAddress tx)) (balances (world st'))
             = balanceOf (Some (Transaction.toAddress tx)) (balances (world st))
               + Transaction.amount tx)
  /\ pendingPool (world st')
       = hashSet (Transaction.hash tx) data (pendingPool (world st))
  /\ In (Transaction.hash tx, data) (pendingPool (world st'))
  /\ pendingTransactions (ledger st') = pendingTransactions (ledger st) ++ [tx]
  /\ chain (ledger st') = chain (ledger st).
Proof.
  intros q hasFrom hasTo valid positive rich. cbv zeta.
  rewrite addTransaction_rich by assumption. cbn.
  repeat split; try reflexivity.
  - destruct (Transaction.fromAddress tx) as [sender|] eqn:from; [|discriminate].
    assert (balanceKey (Some sender) <> balanceKey (Some (Transaction.toAddress tx))) as ne.
    { intros E. apply (balanceKey_inj (Some sender) (Some (Transaction.toAddress tx))) in E.
      cbn in E. congruence. }
    rewrite balanceOf_deposit_other by congruence.
    rewrite balanceOf_deposit_same. lia.
  - rewrite balanceOf_deposit_same.
    destruct (Transaction.fromAddress tx) as [sender|] eqn:from; [|discriminate].
    assert (balanceKey (Some sender) <> balanceKey (Some (Transaction.toAddress tx))) as ne.
    { intros E. apply (balanceKey_inj (Some sender) (Some (Transaction.toAddress tx))) in E.
      cbn in E. congruence. }
    now rewrite balanceOf_deposit_other by congruence.
  - apply hashSet_stores.
Qed.

(** Alice holds 100 and pays Bob 50: accepted. *)
Lemma addTransaction_accepts_witness :
  fst (addTransaction Sample.payment Sample.funded) = Ret VUndefined
  /\ balanceOf (Some "alice") (balances (world Sample.queued)) = 50
  /\ balanceOf (Some "bob") (balances (world Sample.queued)) = 50.
Proof.
  assert (quiet Sample.funded) as q by reflexivity.
  assert (Transaction.isValid Sample.payment = Ret true) as valid
    by (vm_compute; reflexivity).
  assert (Transaction.amount Sample.payment
          <= balanceOf (Transaction.fromAddress Sample.payment)
               (balances (world Sample.funded))) as rich
    by (vm_compute; discriminate).
  destruct (addTransaction_accepts Sample.payment Sample.funded
              q eq_refl eq_refl valid eq_refl rich)
    as (returned & _ & moved & _).
  split; [exact returned|].
  destruct (moved ltac:(discriminate)) as [debit credit].
  split; [exact debit | exact credit].
Defined.

(** C4, as stated, fails: Alice's payment passes the four checks and is
    accepted, and the call returns [undefined], not the hash. And when
    Redis rejects the read inside the first [updateWalletBalance], the
    payment is accepted all the same while Alice keeps her 100. *)
Lemma addTransaction_returns_no_hash :
  truthy (Transaction.fromAddress Sample.payment) = true
  /\ truthy (Some (Transaction.toAddress Sample.payment)) = true
  /\ Transaction.isValid Sample.payment = Ret true
  /\ 0 < Transaction.amount Sample.payment
  /\ Transaction.amount Sample.payment
       <= balanceOf (Transaction.fromAddress Sample.payment)
            (balances (world Sample.funded))
  /\ fst (addTransaction Sample.payment Sample.funded) = Ret VUndefined
  /\ fst (addTransaction Sample.payment Sample.funded)
       <> Ret (VString (Transaction.hash Sample.payment))
  /\ fst (addTransaction Sample.payment Sample.flaky) = Ret VUndefined
  /\ balanceOf (Some "alice")
       (balances (world (snd (addTransaction Sample.payment Sample.flaky)))) = 100.
Proof.
  repeat split; try (vm_compute; reflexivity); vm_compute; discriminate.
Qed.

(** C10 (amended): [getBalanceOfAddress] returns a number on every state;
    it returns 0 for an address without entry in the store and whenever the
    read is rejected. A transaction of positive amount whose sender has no
    entry is always refused by [addTransaction], and the error is "Not
    enough balance" when the transaction passes the three checks made
    before the balance is read. *)
Theorem getBalanceOfAddress_defaults_to_zero `{Primitives} :
  (forall address st, exists z, fst (getBalanceOfAddress address st) = Ret z)
  /\ (forall address st,
        balances (world st) !! balanceKey address = None ->
        fst (getBalanceOfAddress address st) = Ret 0)
  /\ (forall address st,
        nextCallFails st = true ->
        fst (getBalanceOfAddress address st) = Ret 0)
  /\ (forall tx st,
        balances (world st) !! balanceKey (Transaction.fromAddress tx) = None ->
        0 < Transaction.amount tx ->
        (exists msg, fst (addTransaction tx st) = Throw (Error msg))
        /\ (truthy (Transaction.fromAddress tx) = true ->
            truthy (Some (Transaction.toAddress tx)) = true ->
            Transaction.isValid tx = Ret true ->
            fst (addTransaction tx st) = Throw (Error "Not enough balance"))).
Proof.
  split; [|split; [|split]].
  - apply getBalanceOfAddress_returns.
  - intros address st absent. rewrite getBalanceOfAddress_value.
    unfold balanceOf. rewrite absent. now destruct (nextCallFails st).
  - intros address st fails. rewrite getBalanceOfAddress_value. now rewrite fails.
  - intros tx st absent positive. split.
    + now apply addTransaction_rejects.
    + intros hasFrom hasTo valid.
      rewrite addTransaction_poor; try assumption; [reflexivity|].
      unfold balanceOf. rewrite absent. exact positive.
Qed.

(** Alice was never funded: her signed payment of 50 is refused for lack
    of balance. *)
Lemma getBalanceOfAddress_defaults_to_zero_witness :
  fst (addTransaction Sample.payment Sample.unfunded)
    = Throw (Error "Not enough balance").
Proof.
  apply (proj2 (proj2 (proj2 (proj2 getBalanceOfAddress_defaults_to_zero))
                  Sample.payment Sample.unfunded eq_refl eq_refl)).
  - reflexivity.
  - reflexivity.
  - vm_compute. reflexivity.
Defined.

(** C10, as stated, fails: Alice was never funded and the amount is
    positive, yet her unsigned payment is refused as invalid, not for lack
    of balance. *)
Lemma unfunded_sender_other_error :
  balances (world Sample.unfunded)
    !! balanceKey (Transaction.fromAddress Sample.unsignedPayment) = None
  /\ 0 < Transaction.amount Sample.unsignedPayment
  /\ fst (addTransaction Sample.unsignedPayment Sample.unfunded)
       = Throw (Error "Cannot add invalid transaction to chain")
  /\ fst (addTransaction Sample.unsignedPayment Sample.unfunded)
       <> Throw (Error "Not enough balance").
Proof.
  repeat split; try (vm_compute; reflexivity); vm_compute; discriminate.
Qed.

(** ** Mining *)

Section MiningFacts.
Context `{Primitives}.

Lemma collaborator_run (operation : string) (st : State) :
  collaborator operation st
    = (if nextCallFails st then Throw (Rejected operation) else Ret tt, popped st).
Proof.
  unfold collaborator, nextCallFails, popped.
  now destruct (faults (world st)) as [|[|] later].
Qed.

(** The [try] block of [minePendingTransactions], case by case. *)
Lemma mineBody_run (fuel : nat) (miner : string) (st : State) :
  mineBody fuel miner st
    = if nextCallFails st
      then (Throw (Rejected "client.hGetAll"), popped st)
      else
        let st' := onLedger (setPendingTransactions (snapshot (popped st))) (popped st) in
        if (length (batchOf st') =? 0)%nat
        then (Ret VUndefined, st')
        else
          match Block.mineBlock fuel (difficulty (ledger st')) (candidate miner st') with
          | None => (Diverge, st')
          | Some mined => afterMining (batchOf st') (rewardFor miner st') mined st'
          end.
Proof.
  unfold mineBody, loadPendingTransactionsFromRedis.
  unfold bind at 1. unfold bind at 1. rewrite collaborator_run.
  destruct (nextCallFails st); [reflexivity|].
  cbn -[Block.mineBlock Block.new Transaction.new saveBlock forEach take].
  fold (snapshot (popped st)).
  set (st' := onLedger (setPendingTransactions (snapshot (popped st))) (popped st)).
  change (take (transactionThreshold (ledger (popped st))) (snapshot (popped st)))
    with (batchOf st').
  destruct (length (batchOf st') =? 0)%nat; [reflexivity|].
  unfold bind at 1 2 3, now, gets, mine.
  change (Block.new _ _ _ _ _) with (candidate miner st').
  change (difficulty (ledger (popped st))) with (difficulty (ledger st')).
  destruct (Block.mineBlock fuel (difficulty (ledger st')) (candidate miner st'));
    reflexivity.
Qed.

(** *** Invariants along a computation *)

Lemma safe_ret {A} (I : State -> Prop) (a : A) : safe I (ret a).
Proof. intros st inv. now split. Qed.

Lemma safe_modify (I : State -> Prop) (f : State -> State) :
  (forall st, I st -> I (f st)) -> safe I (modify f).
Proof. intros keep st inv. split; [now apply keep | discriminate]. Qed.

Lemma safe_bind {A B} (I : State -> Prop) (m : M A) (k : A -> M B) :
  safe I m -> (forall a, safe I (k a)) -> safe I (bind m k).
Proof.
  intros sm sk st inv. unfold bind.
  destruct (sm st inv) as [inv' ends].
  destruct (m st) as [[a|e|] st']; cbn in *.
  - now apply sk.
  - now split.
  - contradiction.
Qed.

Lemma safe_tryCatch {A} (I : State -> Prop) (m : M A) (handler : error -> M A) :
  safe I m -> (forall e, safe I (handler e)) -> safe I (tryCatch m handler).
Proof.
  intros sm sh st inv. unfold tryCatch.
  destruct (sm st inv) as [inv' ends].
  destruct (m st) as [[a|e|] st']; cbn in *.
  - now split.
  - now apply sh.
  - contradiction.
Qed.

Lemma safe_forEach {A} (I : State -> Prop) (l : list A) (body : A -> M unit) :
  (forall x, safe I (body x)) -> safe I (forEach l body).
Proof.
  intros sb. induction l as [|x l IH]; cbn.
  - apply safe_ret.
  - apply safe_bind; [apply sb | intros _; exact IH].
Qed.

Lemma safe_forEachFrom {A} (I : State -> Prop) (l : list A)
    (body : nat -> A -> M unit) (i : nat) :
  (forall j x, safe I (body j x)) -> safe I (forEachFrom i l body).
Proof.
  intros sb. revert i. induction l as [|x l IH]; intros i; cbn.
  - apply safe_ret.
  - apply safe_bind; [apply sb | intros _; apply IH].
Qed.

Section WorldStable.
Variable I : State -> Prop.
Hypothesis stable : worldStable I.

Lemma popped_stable (st : State) : I st -> I (popped st).
Proof.
  intros inv. unfold popped.
  destruct (faults (world st)); [assumption | now apply stable].
Qed.

Lemma safe_collaborator (operation : string) : safe I (collaborator operation).
Proof.
  intros st inv. rewrite collaborator_run. cbn. split.
  - now apply popped_stable.
  - now destruct (nextCallFails st).
Qed.

Lemma safe_clientGet (key : string) : safe I (clientGet key).
Proof.
  apply safe_bind; [apply safe_collaborator|]. intros _ st inv. now split.
Qed.

Lemma safe_clientSet (key : string) (v : Z) : safe I (clientSet key v).
Proof.
  apply safe_bind; [apply safe_collaborator|]. intros _.
  apply safe_modify. intros st inv. now apply stable.
Qed.

Lemma safe_dbInsert (row : DbRow) : safe I (dbInsert row).
Proof.
  apply safe_bind; [apply safe_collaborator|]. intros _.
  apply safe_modify. intros st inv. now apply stable.
Qed.

Lemma safe_updateWalletBalance (address : option string) (amt : Z) :
  safe I (updateWalletBalance address amt).
Proof.
  apply safe_tryCatch; [|intros _; apply safe_ret].
  apply safe_bind; [apply safe_clientGet|]. intros balance. apply safe_clientSet.
Qed.

Lemma safe_removePending (h : string) :
  safe I (removePendingTransactionFromRedis h).
Proof.
  apply safe_bind; [apply safe_collaborator|]. intros _.
  apply safe_modify. intros st inv. now apply stable.
Qed.

Lemma safe_saveBlock (aliased : nat) (b : Block.t) :
  stampStable I -> safe I (saveBlock aliased b).
Proof.
  intros stamps. unfold saveBlock.
  apply safe_bind; [apply safe_dbInsert|]. intros _.
  apply safe_bind.
  - apply safe_forEachFrom. intros j tx.
    apply safe_bind; [|intros _; apply safe_dbInsert].
    intros st inv. split; [now apply stamps | discriminate].
  - intros _. apply safe_bind; [apply safe_dbInsert|]. intros _.
    apply safe_forEach. intros tx. apply safe_dbInsert.
Qed.

(** Once the mined block is pushed, the rest of the [try] block keeps the
    invariant, ends, and can only return [undefined]. *)
Lemma afterMining_safe (batch : list Transaction.t) (reward : Transaction.t)
    (mined : Block.t) (st : State) :
  stampStable I ->
  I (onLedger (fun l => setChain (chain l ++ [mined]) l) st) ->
  I (snd (afterMining batch reward mined st))
  /\ fst (afterMining batch reward mined st) <> Diverge
  /\ (forall v, fst (afterMining batch reward mined st) = Ret v -> v = VUndefined).
Proof.
  intros stamps pushed. unfold afterMining.
  unfold bind at 1. cbn [modify].
  set (st1 := onLedger _ st) in *.
  assert (safe I (saveBlock (length batch) mined ;;;
                  forEach (batch ++ [reward]) (fun tx =>
                    removePendingTransactionFromRedis (Transaction.hash tx) ;;;
                    updateWalletBalance (Transaction.fromAddress tx)
                      (- Transaction.amount tx) ;;;
                    updateWalletBalance (Some (Transaction.toAddress tx))
                      (Transaction.amount tx)) ;;;
                  ret VUndefined)) as rest.
  { apply safe_bind; [now apply safe_saveBlock|]. intros _.
    apply safe_bind; [|intros _; apply safe_ret].
    apply safe_forEach. intros tx.
    apply safe_bind; [apply safe_removePending|]. intros _.
    apply safe_bind; [apply safe_updateWalletBalance|]. intros _.
    apply safe_updateWalletBalance. }
  destruct (rest st1 pushed) as [inv ends].
  split; [exact inv|]. split; [exact ends|].
  intros v. unfold bind.
  repeat match goal with
  | |- context [match ?m with pair _ _ => _ end] => destruct m as [[?|?|] ?]
  end; cbn; try discriminate.
  now intros [= <-].
Qed.

Lemma ledger_popped (st : State) : ledger (popped st) = ledger st.
Proof. unfold popped. now destruct (faults (world st)). Qed.

(** The whole [try] block keeps an invariant that looks neither at the
    ledger object nor at the stores; it can only return [undefined], and
    it ends when the difficulty is 0. *)
Lemma mineBody_safe (fuel : nat) (miner : string) (st : State) :
  ledgerStable I -> I st ->
  I (snd (mineBody fuel miner st))
  /\ (forall v, fst (mineBody fuel miner st) = Ret v -> v = VUndefined)
  /\ (difficulty (ledger st) = 0%nat -> fst (mineBody fuel miner st) <> Diverge).
Proof.
  intros blind inv. rewrite mineBody_run.
  destruct (nextCallFails st).
  { cbn. split; [now apply popped_stable|]. split; [discriminate|discriminate]. }
  cbv zeta.
  set (st' := onLedger (setPendingTransactions (snapshot (popped st))) (popped st)).
  assert (I st') as inv' by (apply blind; now apply popped_stable).
  assert (difficulty (ledger st') = difficulty (ledger st)) as sameDifficulty
    by (unfold st'; cbn; now rewrite ledger_popped).
  destruct (length (batchOf st') =? 0)%nat.
  { cbn. split; [exact inv'|]. split; [now intros v [= <-] | discriminate]. }
  destruct (Block.mineBlock fuel (difficulty (ledger st')) (candidate miner st'))
    as [mined|] eqn:search.
  - destruct (afterMining_safe (batchOf st') (rewardFor miner st') mined st')
      as (kept & ends & only).
    + intros s a i h held. now apply blind.
    + now apply blind.
    + split; [exact kept|]. split; [exact only | intros _; exact ends].
  - cbn. split; [exact inv'|]. split; [discriminate|].
    intros easy. rewrite sameDifficulty, easy, mineBlock_zero in search. discriminate.
Qed.

End WorldStable.

Lemma minePendingTransactions_busy (fuel : nat) (miner : string) (st : State) :
  miningLock (world st) = true ->
  minePendingTransactions fuel miner st = (Ret VUndefined, st).
Proof.
  intros busy. unfold minePendingTransactions, bind, acquireLock. now rewrite busy.
Qed.

Lemma minePendingTransactions_free (fuel : nat) (miner : string) (st : State) :
  miningLock (world st) = false ->
  minePendingTransactions fuel miner st
    = tryFinally (tryCatch (mineBody fuel miner) (fun _ => ret VUndefined))
        releaseLock
        (onWorld (fun w => setLock true (lockReleases w) w) st).
Proof.
  intros free. unfold minePendingTransactions, bind, acquireLock. now rewrite free.
Qed.

(** The [try]/[catch]/[finally] frame of [minePendingTransactions] around
    any body that leaves the lock alone: whether the body returns or
    throws, the frame returns, with one more release and the lock free. *)
Lemma finally_releases_once {A} (body : M A) (fallback : A) (n : nat) (st : State) :
  (forall s, lockHeld n s -> lockHeld n (snd (body s))) ->
  lockHeld n st ->
  let run := tryFinally (tryCatch body (fun _ => ret fallback)) releaseLock st in
  fst run <> Diverge ->
  (exists a, fst run = Ret a)
  /\ lockReleases (world (snd run)) = S n
  /\ miningLock (world (snd run)) = false.
Proof.
  intros keeps held. cbv zeta. unfold tryFinally, tryCatch, releaseLock.
  destruct (keeps st held) as [_ count].
  destruct (body st) as [[a|e|] st']; cbn in *; intros ends.
  - rewrite count. eauto.
  - rewrite count. eauto.
  - contradiction.
Qed.

Lemma lockHeld_worldStable (n : nat) : worldStable (lockHeld n).
Proof. intros st [held count]. repeat split; assumption. Qed.

Lemma lockHeld_ledgerStable (n : nat) : ledgerStable (lockHeld n).
Proof. intros st f [held count]. split; assumption. Qed.

End MiningFacts.

(** C8: when the mining lock is held by somebody else,
    [minePendingTransactions] returns [undefined] and leaves the whole
    state (chain, pending pool, balances, everything) as it was. When it
    gets the lock, whatever calls to Redis or to the database are rejected
    afterwards, it never throws; if it completes it has called
    [releaseLock] exactly once and the lock is free; while the nonce search
    has not ended no release has happened; and at difficulty 0 it always
    completes. *)
Theorem minePendingTransactions_lock_discipline `{Primitives}
    (fuel : nat) (miner : string) (st : State) :
  (miningLock (world st) = true ->
     minePendingTransactions fuel miner st = (Ret VUndefined, st))
  /\ (miningLock (world st) = false ->
      let run := minePendingTransactions fuel miner st in
      (fst run = Ret VUndefined \/ fst run = Diverge)
      /\ (fst run = Ret VUndefined ->
            lockReleases (world (snd run)) = S (lockReleases (world st))
            /\ miningLock (world (snd run)) = false)
      /\ (fst run = Diverge ->
            lockReleases (world (snd run)) = lockReleases (world st)
            /\ miningLock (world (snd run)) = true)
      /\ (difficulty (ledger st) = 0%nat -> fst run = Ret VUndefined)).
Proof.
  split.
  - apply minePendingTransactions_busy.
  - intros free. cbv zeta.
    rewrite minePendingTransactions_free by assumption.
    unfold tryFinally, tryCatch, releaseLock.
    set (st1 := onWorld (fun w => setLock true (lockReleases w) w) st).
    destruct (mineBody_safe (lockHeld (lockReleases (world st)))
                (lockHeld_worldStable _) fuel miner st1
                (lockHeld_ledgerStable _))
      as ([held count] & only & ends).
    { split; reflexivity. }
    assert (difficulty (ledger st1) = difficulty (ledger st)) as sameDifficulty
      by reflexivity.
    rewrite sameDifficulty in ends.
    destruct (mineBody fuel miner st1) as [[v|e|] st2]; cbn in *.
    + rewrite (only v eq_refl), count.
      repeat split; auto; discriminate.
    + rewrite count. repeat split; auto; discriminate.
    + rewrite count, held. repeat split; auto; try discriminate.
      intros easy. now destruct (ends easy).
Qed.

(** With the lock free, the queued payment is mined and the lock is
    released once; with the lock taken, nothing happens. *)
Lemma minePendingTransactions_lock_discipline_witness :
  lockReleases (world (snd (minePendingTransactions 0 "miner-address" Sample.queued)))
    = 1%nat
  /\ minePendingTransactions 0 "miner-address" Sample.locked
       = (Ret VUndefined, Sample.locked).
Proof.
  split.
  - apply (proj2 (minePendingTransactions_lock_discipline
                    0 "miner-address" Sample.queued) eq_refl).
    vm_compute. reflexivity.
  - apply (proj1 (minePendingTransactions_lock_discipline
                    0 "miner-address" Sample.locked)).
    reflexivity.
Defined.

(** ** The block appended by mining *)

Section AppendFacts.
Context `{Primitives}.

Lemma mineBlock_transactions (fuel d : nat) (b mined : Block.t) :
  Block.mineBlock fuel d b = Some mined ->
  Block.transactions mined = Block.transactions b.
Proof.
  revert b. induction fuel as [|fuel IH]; intros b; cbn;
    destruct (Block.meetsDifficulty d b); intros E; try discriminate.
  - now injection E as <-.
  - now injection E as <-.
  - now rewrite (IH _ E).
Qed.

Lemma unstamped_alter (h : string) (i : nat) (txs : list Transaction.t) :
  map unstamped (alter (Transaction.setBlockHash h) i txs) = map unstamped txs.
Proof.
  revert i. induction txs as [|tx txs IH]; intros [|i]; cbn; try reflexivity.
  now rewrite IH.
Qed.

Lemma alter_last {A} (f : A -> A) (l : list A) (x : A) :
  alter f (length (l ++ [x]) - 1)%nat (l ++ [x]) = l ++ [f x].
Proof.
  rewrite length_app. cbn.
  replace (length l + 1 - 1)%nat with (length l) by lia.
  induction l as [|y l IH]; cbn; [reflexivity|]. now rewrite IH.
Qed.

Lemma appended_worldStable (old : list Block.t) (target : list Transaction.t) :
  worldStable (appended old target).
Proof. intros st inv. repeat split; intros x; exact inv. Qed.

Lemma appended_stampStable (old : list Block.t) (target : list Transaction.t) :
  stampStable (appended old target).
Proof.
  intros st aliased i h (b & shape & txs). unfold appended, stamp. cbn.
  rewrite shape, alter_last. eexists. split; [reflexivity|].
  cbn. now rewrite unstamped_alter.
Qed.

Lemma unstamped_snapshot (st : State) : map unstamped (snapshot st) = snapshot st.
Proof.
  unfold snapshot. induction (pendingPool (world st)) as [|e p IH]; cbn;
    [reflexivity | now rewrite IH].
Qed.

Lemma unstamped_take (n : nat) (txs : list Transaction.t) :
  map unstamped txs = txs -> map unstamped (take n txs) = take n txs.
Proof.
  revert n. induction txs as [|tx txs IH]; intros [|n] E; cbn in *; try reflexivity.
  injection E as E1 E2. now rewrite E1, IH.
Qed.

Lemma world_popped (st : State) :
  pendingPool (world (popped st)) = pendingPool (world st)
  /\ balances (world (popped st)) = balances (world st)
  /\ clock (world (popped st)) = clock (world st)
  /\ miningLock (world (popped st)) = miningLock (world st)
  /\ lockReleases (world (popped st)) = lockReleases (world st).
Proof. unfold popped. now destruct (faults (world st)). Qed.

Lemma staged_ledger (st : State) :
  ledger (staged st) = setPendingTransactions (snapshot st) (ledger st).
Proof. unfold staged. cbn. now rewrite ledger_popped. Qed.

Lemma staged_world (st : State) :
  pendingPool (world (staged st)) = pendingPool (world st)
  /\ balances (world (staged st)) = balances (world st)
  /\ clock (world (staged st)) = clock (world st)
  /\ miningLock (world (staged st)) = true
  /\ lockReleases (world (staged st)) = lockReleases (world st).
Proof.
  unfold staged. cbn.
  destruct (world_popped
              (onWorld (fun w => setLock true (lockReleases w) w) st))
    as (-> & -> & -> & -> & ->).
  repeat split.
Qed.

Lemma staged_views (miner : string) (st : State) :
  snapshot (staged st) = snapshot st
  /\ batchOf (staged st) = batchOf st
  /\ rewardFor miner (staged st) = rewardFor miner st
  /\ candidate miner (staged st) = candidate miner st.
Proof.
  destruct (staged_world st) as (pool & _ & time & _).
  assert (snapshot (staged st) = snapshot st) as snap
    by (unfold snapshot; now rewrite pool).
  assert (batchOf (staged st) = batchOf st) as batch
    by (unfold batchOf; now rewrite snap, staged_ledger).
  assert (rewardFor miner (staged st) = rewardFor miner st) as reward
    by (unfold rewardFor; now rewrite time, staged_ledger).
  repeat split; try assumption.
  unfold candidate. now rewrite batch, reward, time, staged_ledger.
Qed.

(** The run of [minePendingTransactions] that reaches the nonce search. *)
Lemma minePendingTransactions_run (fuel : nat) (miner : string) (st : State) :
  miningLock (world st) = false ->
  nextCallFails st = false ->
  batchOf st <> [] ->
  minePendingTransactions fuel miner st
    = match Block.mineBlock fuel (difficulty (ledger st)) (candidate miner st) with
      | None => (Diverge, staged st)
      | Some mined =>
          tryFinally
            (tryCatch (afterMining (batchOf st) (rewardFor miner st) mined)
                      (fun _ => ret VUndefined))
            releaseLock (staged st)
      end.
Proof.
  intros free answered some.
  rewrite minePendingTransactions_free by assumption.
  unfold tryFinally at 1, tryCatch at 1. rewrite mineBody_run.
  change (nextCallFails (onWorld (fun w => setLock true (lockReleases w) w) st))
    with (nextCallFails st).
  rewrite answered. cbv zeta.
  assert (snapshot (popped (onWorld (fun w => setLock true (lockReleases w) w) st))
          = snapshot st) as snap.
  { unfold snapshot.
    now destruct (world_popped (onWorld (fun w => setLock true (lockReleases w) w) st))
      as (-> & _). }
  rewrite snap. fold (staged st).
  destruct (staged_views miner st) as (_ & -> & -> & ->).
  rewrite staged_ledger. cbn [difficulty setPendingTransactions].
  destruct (batchOf st) as [|tx batch] eqn:taken; [contradiction|].
  cbn [length Nat.eqb].
  destruct (Block.mineBlock fuel (difficulty (ledger st)) (candidate miner st));
    reflexivity.
Qed.

End AppendFacts.

Lemma loadPendingTransactionsFromRedis_run `{Primitives} (st : State) :
  loadPendingTransactionsFromRedis st
    = (if nextCallFails st then Throw (Rejected "client.hGetAll")
       else Ret (snapshot st),
       popped st).
Proof.
  unfold loadPendingTransactionsFromRedis, bind. rewrite collaborator_run.
  destruct (nextCallFails st); [reflexivity|]. unfold gets, snapshot.
  now destruct (world_popped st) as (-> & _).
Qed.

(** C3: when the lock is free and the pool, as
    [loadPendingTransactionsFromRedis] reads it, holds at least
    [transactionThreshold] transactions (the threshold being positive), a
    completed [minePendingTransactions] has appended exactly one block to
    the chain. Its transactions are, up to the back-reference written by
    [save], the first [transactionThreshold] pool transactions in pool
    order followed by the reward transaction, [transactionThreshold] + 1 in
    all; the reward has no sender, goes to the given miner address and
    amounts to [miningReward]. This holds whatever call is rejected after
    the snapshot. The invocation completes when the nonce search ends,
    which it always does at difficulty 0. *)
Theorem minePendingTransactions_appends_block `{Primitives}
    (fuel : nat) (miner : string) (st : State) (pool : list Transaction.t) :
  miningLock (world st) = false ->
  fst (loadPendingTransactionsFromRedis st) = Ret pool ->
  (0 < transactionThreshold (ledger st))%nat ->
  (transactionThreshold (ledger st) <= length pool)%nat ->
  let run := minePendingTransactions fuel miner st in
  let reward := rewardFor miner st in
  (difficulty (ledger st) = 0%nat -> fst run = Ret VUndefined)
  /\ (fst run = Ret VUndefined ->
      exists b,
        chain (ledger (snd run)) = chain (ledger st) ++ [b]
        /\ map unstamped (Block.transactions b)
             = take (transactionThreshold (ledger st)) pool ++ [reward]
        /\ length (Block.transactions b) = S (transactionThreshold (ledger st))
        /\ length (chain (ledger (snd run))) = S (length (chain (ledger st))))
  /\ Transaction.fromAddress reward = None
  /\ Transaction.toAddress reward = miner
  /\ Transaction.amount reward = miningReward (ledger st).
Proof.
  intros free loaded positive enough. cbv zeta.
  rewrite loadPendingTransactionsFromRedis_run in loaded. cbn in loaded.
  destruct (nextCallFails st) eqn:answered; [discriminate|].
  injection loaded as <-.
  assert (length (batchOf st) = transactionThreshold (ledger st)) as full.
  { unfold batchOf. rewrite length_take. lia. }
  assert (batchOf st <> []) as some.
  { intros E. rewrite E in full. cbn in full. lia. }
  rewrite minePendingTransactions_run by assumption.
  split; [|split; [|repeat split]].
  - intros easy. rewrite easy, mineBlock_zero.
    destruct (afterMining_safe (fun _ => True)
                ltac:(intros s _; repeat split)
                (batchOf st) (rewardFor miner st) (candidate miner st) (staged st))
      as (_ & ends & only); [intros s a i h _; exact Logic.I | exact Logic.I|].
    unfold tryFinally, tryCatch.
    destruct (afterMining _ _ _ (staged st)) as [[v|e|] st2]; cbn in *.
    + now rewrite (only v eq_refl).
    + reflexivity.
    + contradiction.
  - destruct (Block.mineBlock fuel (difficulty (ledger st)) (candidate miner st))
      as [mined|] eqn:search; [|discriminate].
    intros _.
    set (target := take (transactionThreshold (ledger st)) (snapshot st)
                     ++ [rewardFor miner st]).
    destruct (afterMining_safe (appended (chain (ledger st)) target)
                (appended_worldStable _ _)
                (batchOf st) (rewardFor miner st) mined (staged st)
                (appended_stampStable _ _))
      as ((b & shape & txs) & _ & _).
    { exists mined. split.
      { change (chain (ledger (staged st)) ++ [mined] = chain (ledger st) ++ [mined]).
        now rewrite staged_ledger. }
      rewrite (mineBlock_transactions _ _ _ _ search).
      change (Block.transactions (candidate miner st))
        with (batchOf st ++ [rewardFor miner st]).
      rewrite map_app. unfold target. f_equal.
      apply unstamped_take, unstamped_snapshot. }
    assert (chain (ledger
              (snd (tryFinally
                      (tryCatch (afterMining (batchOf st) (rewardFor miner st) mined)
                                (fun _ => ret VUndefined))
                      releaseLock (staged st))))
            = chain (ledger (snd (afterMining (batchOf st) (rewardFor miner st)
                                    mined (staged st))))) as sameChain.
    { unfold tryFinally, tryCatch.
      now destruct (afterMining _ _ _ (staged st)) as [[v|e|] st2]. }
    exists b. rewrite sameChain, shape. repeat split.
    + exact txs.
    + apply (f_equal (@length _)) in txs. rewrite length_map in txs.
      rewrite txs. unfold target. rewrite length_app. cbn.
      fold (batchOf st). lia.
    + rewrite length_app. cbn. lia.
Qed.

(** The two payments are mined with the reward into the block that
    follows the genesis block. *)
Lemma minePendingTransactions_appends_block_witness :
  exists b,
    chain (ledger (snd (minePendingTransactions 0 "miner-address" Sample.ready)))
      = chain (ledger Sample.ready) ++ [b]
    /\ length (Block.transactions b) = 3%nat.
Proof.
  destruct (minePendingTransactions_appends_block 0 "miner-address" Sample.ready
              (snapshot Sample.ready))
    as (completes & appends & _).
  - reflexivity.
  - reflexivity.
  - vm_compute. lia.
  - vm_compute. lia.
  - destruct (appends (completes eq_refl)) as (b & shape & _ & size & _).
    exists b. split; [exact shape | exact size].
Defined.

(** ** Balances after mining *)

Section SettlementFacts.
Context `{Primitives}.

Lemma quietly_ret {A} (I : State -> Prop) (a : A) : quietly I (ret a).
Proof. intros st q inv. cbn. eauto. Qed.

Lemma quietly_bind {A B} (I : State -> Prop) (m : M A) (k : A -> M B) :
  quietly I m -> (forall a, quietly I (k a)) -> quietly I (bind m k).
Proof.
  intros qm qk st q inv. unfold bind.
  destruct (qm st q inv) as ([a returned] & q' & inv').
  destruct (m st) as [r st']. cbn in *. subst r. now apply qk.
Qed.

Lemma quietly_forEach {A} (I : State -> Prop) (l : list A) (body : A -> M unit) :
  (forall x, quietly I (body x)) -> quietly I (forEach l body).
Proof.
  intros qb. induction l as [|x l IH]; cbn.
  - apply quietly_ret.
  - apply quietly_bind; [apply qb | intros _; exact IH].
Qed.

Lemma quietly_forEachFrom {A} (I : State -> Prop) (l : list A)
    (body : nat -> A -> M unit) (i : nat) :
  (forall j x, quietly I (body j x)) -> quietly I (forEachFrom i l body).
Proof.
  intros qb. revert i. induction l as [|x l IH]; intros i; cbn.
  - apply quietly_ret.
  - apply quietly_bind; [apply qb | intros _; apply IH].
Qed.

Lemma quietly_dbInsert (b : gmap string Z) (p : list (string * PendingData))
    (row : DbRow) :
  quietly (storesAre b p) (dbInsert row).
Proof.
  intros st q inv. unfold dbInsert, bind.
  rewrite collaborator_quiet by assumption. cbn. eauto.
Qed.

Lemma quietly_saveBlock (b : gmap string Z) (p : list (string * PendingData))
    (aliased : nat) (blk : Block.t) :
  quietly (storesAre b p) (saveBlock aliased blk).
Proof.
  unfold saveBlock.
  apply quietly_bind; [apply quietly_dbInsert|]. intros _.
  apply quietly_bind.
  - apply quietly_forEachFrom. intros j tx.
    apply quietly_bind; [|intros _; apply quietly_dbInsert].
    intros st q inv. cbn. eauto.
  - intros _. apply quietly_bind; [apply quietly_dbInsert|]. intros _.
    apply quietly_forEach. intros tx. apply quietly_dbInsert.
Qed.

(** The drain loop of [minePendingTransactions] when no call is rejected:
    every transaction of the list is deleted from the pool and its two
    balance writes are made, whoever the sender is. *)
Lemma drain_quiet (txs : list Transaction.t) (l : t) (b : gmap string Z)
    (p : list (string * PendingData)) (k : bool) (r : nat) (d : list DbRow) (c : Z) :
  forEach txs (fun tx =>
      removePendingTransactionFromRedis (Transaction.hash tx) ;;;
      updateWalletBalance (Transaction.fromAddress tx) (- Transaction.amount tx) ;;;
      updateWalletBalance (Some (Transaction.toAddress tx)) (Transaction.amount tx))
    (mkState l (mkWorld b p k r d c []))
  = (Ret tt, mkState l (mkWorld (settle txs b) (drained txs p) k r d c [])).
Proof.
  revert b p. induction txs as [|tx txs IH]; intros b p; [reflexivity|].
  cbn [forEach]. unfold bind at 1. unfold bind at 1.
  unfold removePendingTransactionFromRedis at 1. unfold bind at 1.
  rewrite collaborator_quiet by reflexivity. cbn [modify].
  unfold bind at 1. rewrite updateWalletBalance_quiet by reflexivity.
  rewrite updateWalletBalance_quiet by reflexivity.
  unfold onWorld, setBalances, setPendingPool.
  cbn [world ledger balances pendingPool miningLock lockReleases database clock faults].
  rewrite IH. reflexivity.
Qed.

Lemma settle_app (txs txs' : list Transaction.t) (b : gmap string Z) :
  settle (txs ++ txs') b = settle txs' (settle txs b).
Proof. unfold settle. apply fold_left_app. Qed.

Lemma afterMining_quiet (batch : list Transaction.t) (reward : Transaction.t)
    (mined : Block.t) (st : State) :
  quiet st ->
  exists st',
    afterMining batch reward mined st = (Ret VUndefined, st')
    /\ balances (world st') = settle (batch ++ [reward]) (balances (world st))
    /\ pendingPool (world st') = drained (batch ++ [reward]) (pendingPool (world st)).
Proof.
  intros q. unfold afterMining. unfold bind at 1. cbn [modify].
  set (st1 := onLedger (fun l => setChain (chain l ++ [mined]) l) st).
  destruct (quietly_saveBlock (balances (world st)) (pendingPool (world st))
              (length batch) mined st1 q)
    as ([u returned] & q2 & [sameBalances samePool]); [now split|].
  unfold bind at 1.
  destruct (saveBlock (length batch) mined st1) as [r st2]. cbn in returned. subst r.
  cbn [snd] in q2, sameBalances, samePool.
  destruct st2 as [l2 [b2 p2 k2 r2 d2 c2 f2]].
  unfold quiet in q2. cbn in q2, sameBalances, samePool. subst f2 b2 p2.
  unfold bind at 1. rewrite drain_quiet. cbn.
  eexists. repeat split.
Qed.

Lemma staged_quiet (st : State) : quiet st -> quiet (staged st).
Proof.
  intros q. unfold staged, popped, quiet in *. cbn. rewrite q. cbn. exact q.
Qed.

(** The sibling path: the genesis reward also has no sender, and
    [createGenesisBlockWithReward] writes the balance of the recipient
    only. *)
Lemma createGenesisBlockWithReward_credits_recipient_only
    (fuel : nat) (address : string) (initialReward : Z) (st : State) :
  quiet st ->
  match createGenesisBlockWithReward fuel address initialReward st with
  | (Ret _, st') =>
      balances (world st') = deposit (Some address) initialReward (balances (world st))
  | (Throw _, _) => False
  | (Diverge, _) => True
  end.
Proof.
  intros q. unfold createGenesisBlockWithReward.
  unfold bind at 1 2 3 4, now, gets, mine.
  cbn -[Block.mineBlock Block.new Transaction.new saveBlock].
  destruct (Block.mineBlock _ _ _) as [genesisBlock|]; [|exact Logic.I].
  unfold bind at 1. cbn [modify].
  set (st1 := onLedger _ st).
  destruct (quietly_saveBlock (balances (world st)) (pendingPool (world st))
              0 genesisBlock st1 q)
    as ([u returned] & q2 & [sameBalances _]); [now split|].
  unfold bind.
  destruct (saveBlock 0 genesisBlock st1) as [r st2]. cbn in returned. subst r.
  cbn [snd] in q2, sameBalances.
  rewrite updateWalletBalance_quiet by assumption. cbn.
  now rewrite sameBalances.
Qed.

End SettlementFacts.

(** C2: what a run of [minePendingTransactions] that mines a block, no
    call being rejected, does to the stores. Every mined transaction, the
    reward included, is deleted from the pool, and its two balance writes
    are made: the amount is taken from the balance stored for the sender and
    added to the balance stored for the recipient. The sender of the reward
    is [null], and the first write is made all the same, under the key
    [wallet_balance_null]: that key has an entry after every such run, and
    when the miner is not the address "null" its balance has gone down by
    [miningReward]. *)
Theorem minePendingTransactions_settles_null_sender `{Primitives}
    (fuel : nat) (miner : string) (st : State) :
  quiet st ->
  miningLock (world st) = false ->
  batchOf st <> [] ->
  fst (minePendingTransactions fuel miner st) = Ret VUndefined ->
  let after := world (snd (minePendingTransactions fuel miner st)) in
  let justBatch := settle (batchOf st) (balances (world st)) in
  balances after = settle (batchOf st ++ [rewardFor miner st]) (balances (world st))
  /\ pendingPool after
       = drained (batchOf st ++ [rewardFor miner st]) (pendingPool (world st))
  /\ balances after
       = deposit (Some miner) (miningReward (ledger st))
           (deposit None (- miningReward (ledger st)) justBatch)
  /\ is_Some (balances after !! "wallet_balance_null")
  /\ (miner <> "null" ->
        balanceOf None (balances after)
          = balanceOf None justBatch - miningReward (ledger st)).
Proof.
  intros q free some. cbv zeta.
  assert (nextCallFails st = false) as answered
    by (unfold nextCallFails; now rewrite q).
  rewrite minePendingTransactions_run by assumption.
  destruct (Block.mineBlock fuel (difficulty (ledger st)) (candidate miner st))
    as [mined|]; [|discriminate].
  intros _. unfold tryFinally, tryCatch, releaseLock.
  destruct (afterMining_quiet (batchOf st) (rewardFor miner st) mined (staged st)
              (staged_quiet st q))
    as (st2 & -> & settled & emptied).
  destruct (staged_world st) as (pool & funds & _).
  rewrite funds in settled. rewrite pool in emptied. cbn.
  assert (settle (batchOf st ++ [rewardFor miner st]) (balances (world st))
          = deposit (Some miner) (miningReward (ledger st))
              (deposit None (- miningReward (ledger st))
                 (settle (batchOf st) (balances (world st))))) as lastWrites
    by (now rewrite settle_app).
  rewrite settled, emptied. repeat split.
  - exact lastWrites.
  - rewrite lastWrites. unfold deposit at 1.
    change "wallet_balance_null" with (balanceKey None).
    apply lookup_insert_is_Some'. right.
    unfold deposit. rewrite lookup_insert_eq. eauto.
  - intros other. rewrite lastWrites.
    rewrite balanceOf_deposit_other.
    + apply balanceOf_deposit_same.
    + intros E. apply (balanceKey_inj (Some miner) None) in E. contradiction.
Qed.

(** The two queued payments are mined: afterwards the balance stored
    under [wallet_balance_null] is -100. *)
Lemma minePendingTransactions_settles_null_sender_witness :
  balanceOf None
    (balances (world (snd (minePendingTransactions 0 "miner-address" Sample.ready))))
    = -100.
Proof.
  destruct (minePendingTransactions_settles_null_sender
              0 "miner-address" Sample.ready)
    as (_ & _ & _ & _ & debited).
  - reflexivity.
  - reflexivity.
  - vm_compute. discriminate.
  - vm_compute. reflexivity.
  - rewrite debited by discriminate. vm_compute. reflexivity.
Defined.
